(** * OECD agricultural dashboard: the row filter / aggregator

    A shallow embedding of [front-end/src/utils/filter.ts], of the grouping
    loop of the [TimeSeries] component and of the record types they read
    ([types/EnvData.ts], [utils/loadData.ts]), with the properties the
    specification states about them.

    Conventions of the embedding:
    - a JavaScript [number] is an IEEE-754 binary64 value: Rocq's primitive
      [float]; [+] is [PrimFloat.add] and [===] on numbers is
      [PrimFloat.eqb] (so [NaN === NaN] is false and [0 === -0] is true);
    - a JavaScript string is a [string], the sequence of its UTF-8 bytes;
      [===] on strings is [String.eqb]; [toLowerCase] maps the letters A-Z
      and the two letters outside ASCII whose lower case has an ASCII
      letter (U+212A, U+0130); the bytes of the other letters outside
      ASCII are left as they are, which changes no test against an ASCII
      word such as those of [filter.ts];
    - an array is a [list]; [filter], [map] and [forEach] are [List.filter],
      [List.map] and a left fold over the loop's state;
    - a [Map] is an association list in insertion order; a plain object used
      as a record of fields is a [gmap] from field name to value;
    - [console.log] calls only print and are left out. *)

From Stdlib Require Import Ascii PrimFloat FloatOps SpecFloat FloatAxioms.
From stdpp Require Import gmap strings list.

Set Warnings "-inexact-float".

Open Scope string_scope.
Open Scope list_scope.

(** ** JavaScript values *)

Abbreviation number := float.

(** [String.prototype.toLowerCase]. An ASCII letter A-Z becomes a-z. Two
    letters outside ASCII have a lower case with an ASCII letter: U+212A
    KELVIN SIGN (bytes E2 84 AA) becomes "k", and U+0130, the capital I
    with a dot (bytes C4 B0), becomes "i" followed by U+0307 (bytes
    CC 87). *)
Definition toLowerCase_char (c : ascii) : ascii :=
  let n := N_of_ascii c in
  if ((65 <=? n) && (n <=? 90))%N then ascii_of_N (n + 32) else c.

Definition is_KELVIN_SIGN (c0 c1 c2 : ascii) : bool :=
  ((N_of_ascii c0 =? 226) && (N_of_ascii c1 =? 132) && (N_of_ascii c2 =? 170))%N.

Definition is_DOTTED_I (c0 c1 : ascii) : bool :=
  ((N_of_ascii c0 =? 196) && (N_of_ascii c1 =? 176))%N.

Fixpoint toLowerCase (s : string) : string :=
  match s with
  | EmptyString => EmptyString
  | String c0 s1 =>
      match s1 with
      | String c1 s2 =>
          if is_DOTTED_I c0 c1 then
            String "i" (String (ascii_of_N 204) (String (ascii_of_N 135)
              (toLowerCase s2)))
          else
            match s2 with
            | String c2 s3 =>
                if is_KELVIN_SIGN c0 c1 c2 then String "k" (toLowerCase s3)
                else String (toLowerCase_char c0) (toLowerCase s1)
            | EmptyString => String (toLowerCase_char c0) (toLowerCase s1)
            end
      | EmptyString => String (toLowerCase_char c0) (toLowerCase s1)
      end
  end.

(** [s.includes(searchString)]: [searchString] occurs in [s] at some
    position; the empty string occurs in every string. *)
Fixpoint includes (s searchString : string) : bool :=
  String.prefix searchString s ||
  match s with
  | EmptyString => false
  | String _ s' => includes s' searchString
  end.

(** ** [Map]: keys in insertion order

    [set] on a key that is present replaces the value where the key
    stands; on a new key it appends. Keys are compared by SameValueZero,
    which on strings is equality. *)
Section JSMap.
Context {K V : Type} `{EqDecision K}.

Fixpoint Map_get (key : K) (m : list (K * V)) : option V :=
  match m with
  | [] => None
  | (k, v) :: m' => if decide (k = key) then Some v else Map_get key m'
  end.

Fixpoint Map_set (key : K) (v : V) (m : list (K * V)) : list (K * V) :=
  match m with
  | [] => [(key, v)]
  | (k, v') :: m' =>
      if decide (k = key) then (key, v) :: m' else (k, v') :: Map_set key v m'
  end.

Definition Map_keys (m : list (K * V)) : list K := List.map fst m.
End JSMap.

(** ** [types/EnvData.ts] *)

Record EnvData := mkEnvData {
  country_code : string;
  frequency : string;
  measure_code : string;
  Measure : string;
  erosion_level : string;
  water_type : string;
  nutrient_type : string;
  Nutrients : string;
  unit_ : string;           (* field [unit] *)
  year : number;
  value : number;
  decimals : number;
  Decimals : string;
  status : string;
  UNIT_MULT : number;
  BASE_PER : option number  (* [BASE_PER?: number] *)
}.

(** ** [utils/filter.ts] *)

(** The object [{country, year, value}] built by
    [filterProtectionCoefficient]. *)
Module FilteredTuple.
Record t := mk { country : string; year : number; value : number }.
End FilteredTuple.

Definition filterProtectionCoefficient (data : list EnvData)
  : list FilteredTuple.t :=
  let filtered :=
    List.map
      (fun d => {| FilteredTuple.country := country_code d;
                   FilteredTuple.year := year d;
                   FilteredTuple.value := value d |})
      (List.filter
         (fun d =>
            let matches :=
              String.eqb (Measure d) "Producer Nominal Protection Coefficient" in
            matches)
         data) in
  filtered.

(** The parameter [nutrient: "Nitrogen" | "Phosphorus"]. *)
Inductive NutrientName := Nitrogen | Phosphorus.

Definition nutrient_string (n : NutrientName) : string :=
  match n with
  | Nitrogen => "Nitrogen"
  | Phosphorus => "Phosphorus"
  end.

Definition getNutrientSurplusByCountry
    (data : list EnvData) (nutrient : NutrientName) (year0 : number)
  : list EnvData :=
  List.filter
    (fun d =>
       PrimFloat.eqb (year d) year0 &&
       String.eqb (nutrient_type d) (nutrient_string nutrient) &&
       includes (toLowerCase (Measure d)) "surplus")
    data.

(** The value [{ nitrogen, livestock }] held by the lookup map. *)
Record ScatterEntry := mkEntry { nitrogen : number; livestock : number }.

(** The object [{ country, ...values }] of the result. *)
Module ScatterPoint.
Record t := mk { country : string; nitrogen : number; livestock : number }.
End ScatterPoint.

(** The two subsets [nitrogenInput] and [livestock] of [getScatterData]
    (the second is named [livestockRows] here, [livestock] being a field
    as well). *)
Definition nitrogenInput (data : list EnvData) (year0 : number) : list EnvData :=
  List.filter
    (fun d =>
       String.eqb (nutrient_type d) "Nitrogen" &&
       includes (toLowerCase (Measure d)) "input" &&
       PrimFloat.eqb (year d) year0)
    data.

Definition livestockRows (data : list EnvData) (year0 : number) : list EnvData :=
  List.filter
    (fun d =>
       includes (toLowerCase (Measure d)) "livestock" &&
       PrimFloat.eqb (year d) year0)
    data.

(** First loop: [map.set(row.country_code, { nitrogen: row.value,
    livestock: 0 })]. *)
Definition seed_row (map : list (string * ScatterEntry)) (row : EnvData)
  : list (string * ScatterEntry) :=
  Map_set (country_code row)
          {| nitrogen := value row; livestock := 0%float |} map.

(** Second loop: [entry = map.get(row.country_code)]; when the entry exists
    its [livestock] field is increased by [row.value]. The entry object is
    reachable through the map only, so the assignment through [entry]
    changes the value stored under that key and nothing else. *)
Definition add_livestock (map : list (string * ScatterEntry)) (row : EnvData)
  : list (string * ScatterEntry) :=
  match Map_get (country_code row) map with
  | Some entry =>
      Map_set (country_code row)
              {| nitrogen := nitrogen entry;
                 livestock := (livestock entry + value row)%float |} map
  | None => map
  end.

Definition getScatterData (data : list EnvData) (year0 : number)
  : list ScatterPoint.t :=
  let map0 : list (string * ScatterEntry) := [] in
  let map1 := fold_left seed_row (nitrogenInput data year0) map0 in
  let map2 := fold_left add_livestock (livestockRows data year0) map1 in
  List.map
    (fun '(country, values) =>
       {| ScatterPoint.country := country;
          ScatterPoint.nitrogen := nitrogen values;
          ScatterPoint.livestock := livestock values |})
    map2.

Definition groupByMeasure
    (data : list EnvData) (nutrient : string) (year0 : number)
  : list EnvData :=
  List.filter
    (fun d =>
       String.eqb (nutrient_type d) nutrient &&
       PrimFloat.eqb (year d) year0 &&
       includes (toLowerCase (Measure d)) "surplus")
    data.

(** ** [components/TimeSeries.tsx]: the grouping loop

    [grouped] is a plain object indexed by [d.year]; its property key is the
    string ToString([d.year]). Number-to-string conversion sends distinct
    numbers to distinct strings, except that [0] and [-0] both give ["0"]
    (and there is one [NaN]); a key is represented by the number it was
    made from, with the sign of zero dropped. Each value of [grouped] is a
    row object: the field [year] and one field per country code, all own
    data properties (a country code spelled [year] shares the field
    [year]). [chartData], the values of [grouped] sorted by [year], holds
    the same rows in another order. *)
Definition ToPropertyKey (y : number) : spec_float :=
  match Prim2SF y with
  | S754_zero _ => S754_zero false
  | k => k
  end.

#[global] Instance spec_float_eq_dec : EqDecision spec_float.
Proof. solve_decision. Defined.

(** [selectedCountries.includes(code)] *)
Definition Array_includes (l : list string) (x : string) : bool :=
  existsb (fun y => String.eqb y x) l.

Definition TimeSeries_filtered
    (data : list EnvData) (selectedCountries : list string) : list EnvData :=
  List.filter
    (fun d =>
       String.eqb (Measure d) "Producer Nominal Protection Coefficient" &&
       Array_includes selectedCountries (country_code d))
    data.

(** [row[code] = v] on a row object. The row inherits from
    [Object.prototype], whose only accessor property is [__proto__]: an
    assignment to that name runs the setter, which ignores a value that is
    not an object, as a number is, and the row gets no field. Under every
    other name the assignment creates or overwrites an own field. *)
Definition Object_set (row : gmap string number) (code : string) (v : number)
  : gmap string number :=
  if decide (code = "__proto__") then row else <[ code := v ]> row.

(** One turn of [filtered.forEach]: the row of [d.year] is created as
    [{ year: d.year }] when [grouped] has none, then its field
    [d.country_code] is assigned [d.value]. The second lookup always finds
    the row (lemma [group_row_eq]). *)
Definition group_row
    (grouped : list (spec_float * gmap string number)) (d : EnvData)
  : list (spec_float * gmap string number) :=
  let key := ToPropertyKey (year d) in
  let grouped1 :=
    match Map_get key grouped with
    | Some _ => grouped
    | None => Map_set key {[ "year" := year d ]} grouped
    end in
  match Map_get key grouped1 with
  | Some row => Map_set key (Object_set row (country_code d) (value d)) grouped1
  | None => grouped1
  end.

Definition TimeSeries_grouped
    (data : list EnvData) (selectedCountries : list string)
  : list (spec_float * gmap string number) :=
  fold_left group_row (TimeSeries_filtered data selectedCountries) [].

(** ** Rows as they are loaded ([utils/loadData.ts])

    [loadEnvData] returns rows of type [EnvDataRecord], in which [Measure],
    [nutrient_type] and [country_code] are optional, and the dashboard
    casts them to [EnvData[]] without a check. [Loaded] evaluates the
    functions of [filter.ts] on such rows: a missing field reads as
    [undefined] ([None]); comparing it with [===] gives [false]; calling a
    method on it throws a [TypeError]. *)
Inductive JSError := TypeError.

Inductive Completion (A : Type) :=
| Normal (a : A)
| Throw (e : JSError).
Arguments Normal {A} a.
Arguments Throw {A} e.

#[global] Instance Completion_ret : MRet Completion := @Normal.
#[global] Instance Completion_bind : MBind Completion :=
  fun A B f c => match c with Normal a => f a | Throw e => Throw e end.

(** [Array.prototype.filter] with a callback that may throw: the rows are
    visited in order and the first exception ends the call. *)
Fixpoint Array_filter {A} (callback : A -> Completion bool) (l : list A)
  : Completion (list A) :=
  match l with
  | [] => Normal []
  | x :: l' =>
      b ← callback x;
      rest ← Array_filter callback l';
      Normal (if b : bool then x :: rest else rest)
  end.

(** [a && b]: [b] is evaluated only when [a] is true. *)
Definition and_then (a : bool) (b : Completion bool) : Completion bool :=
  if a then b else Normal false.

Module Loaded.
Record EnvDataRecord := mk {
  Measure : option string;
  nutrient_type : option string;
  country_code : option string;
  year : number;
  value : number
}.

(** [x === s] for a field [x] that may be missing. *)
Definition strict_eq (x : option string) (s : string) : bool :=
  match x with
  | Some s' => String.eqb s' s
  | None => false
  end.

(** [d.Measure.toLowerCase().includes(word)] *)
Definition Measure_includes (d : EnvDataRecord) (word : string)
  : Completion bool :=
  match Measure d with
  | Some s => Normal (includes (toLowerCase s) word)
  | None => Throw TypeError
  end.

Module FilteredTuple.
Record t := mk { country : option string; year : number; value : number }.
End FilteredTuple.

Module ScatterPoint.
Record t :=
  mk { country : option string; nitrogen : number; livestock : number }.
End ScatterPoint.

Definition filterProtectionCoefficient (data : list EnvDataRecord)
  : Completion (list FilteredTuple.t) :=
  let filtered :=
    List.map
      (fun d => {| FilteredTuple.country := country_code d;
                   FilteredTuple.year := year d;
                   FilteredTuple.value := value d |})
      (List.filter
         (fun d =>
            let matches :=
              strict_eq (Measure d) "Producer Nominal Protection Coefficient" in
            matches)
         data) in
  Normal filtered.

Definition getNutrientSurplusByCountry
    (data : list EnvDataRecord) (nutrient : NutrientName) (year0 : number)
  : Completion (list EnvDataRecord) :=
  Array_filter
    (fun d =>
       and_then
         (PrimFloat.eqb (year d) year0 &&
          strict_eq (nutrient_type d) (nutrient_string nutrient))
         (Measure_includes d "surplus"))
    data.

Definition seed_row (map : list (option string * ScatterEntry))
    (row : EnvDataRecord) : list (option string * ScatterEntry) :=
  Map_set (country_code row)
          {| nitrogen := value row; livestock := 0%float |} map.

Definition add_livestock (map : list (option string * ScatterEntry))
    (row : EnvDataRecord) : list (option string * ScatterEntry) :=
  match Map_get (country_code row) map with
  | Some entry =>
      Map_set (country_code row)
              {| nitrogen := nitrogen entry;
                 livestock := (livestock entry + value row)%float |} map
  | None => map
  end.

Definition nitrogenInput (data : list EnvDataRecord) (year0 : number)
  : Completion (list EnvDataRecord) :=
  Array_filter
    (fun d =>
       b ← and_then (strict_eq (nutrient_type d) "Nitrogen")
                    (Measure_includes d "input");
       Normal (b && PrimFloat.eqb (year d) year0))
    data.

Definition livestockRows (data : list EnvDataRecord) (year0 : number)
  : Completion (list EnvDataRecord) :=
  Array_filter
    (fun d =>
       b ← Measure_includes d "livestock";
       Normal (b && PrimFloat.eqb (year d) year0))
    data.

Definition getScatterData (data : list EnvDataRecord) (year0 : number)
  : Completion (list ScatterPoint.t) :=
  first ← nitrogenInput data year0;
  second ← livestockRows data year0;
  let map0 : list (option string * ScatterEntry) := [] in
  let map1 := fold_left seed_row first map0 in
  let map2 := fold_left add_livestock second map1 in
  Normal
    (List.map
       (fun '(country, values) =>
          {| ScatterPoint.country := country;
             ScatterPoint.nitrogen := nitrogen values;
             ScatterPoint.livestock := livestock values |})
       map2).

Definition groupByMeasure
    (data : list EnvDataRecord) (nutrient : string) (year0 : number)
  : Completion (list EnvDataRecord) :=
  Array_filter
    (fun d =>
       and_then
         (strict_eq (nutrient_type d) nutrient &&
          PrimFloat.eqb (year d) year0)
         (Measure_includes d "surplus"))
    data.
End Loaded.

(** A row that has the type [EnvData], seen as a loaded row. *)
Definition as_loaded (d : EnvData) : Loaded.EnvDataRecord :=
  {| Loaded.Measure := Some (Measure d);
     Loaded.nutrient_type := Some (nutrient_type d);
     Loaded.country_code := Some (country_code d);
     Loaded.year := year d;
     Loaded.value := value d |}.

Definition tuple_as_loaded (t : FilteredTuple.t) : Loaded.FilteredTuple.t :=
  {| Loaded.FilteredTuple.country := Some (FilteredTuple.country t);
     Loaded.FilteredTuple.year := FilteredTuple.year t;
     Loaded.FilteredTuple.value := FilteredTuple.value t |}.

Definition point_as_loaded (p : ScatterPoint.t) : Loaded.ScatterPoint.t :=
  {| Loaded.ScatterPoint.country := Some (ScatterPoint.country p);
     Loaded.ScatterPoint.nitrogen := ScatterPoint.nitrogen p;
     Loaded.ScatterPoint.livestock := ScatterPoint.livestock p |}.

(** ** Vocabulary for loaded rows *)

(** The tuple that carries the country, year and value of a row. *)
Definition Loaded_tuple (r : Loaded.EnvDataRecord) : Loaded.FilteredTuple.t :=
  {| Loaded.FilteredTuple.country := Loaded.country_code r;
     Loaded.FilteredTuple.year := Loaded.year r;
     Loaded.FilteredTuple.value := Loaded.value r |}.

(** The row has a measure label whose lower case contains [word]. *)
Definition Loaded_has_word (word : string) (r : Loaded.EnvDataRecord) : bool :=
  match Loaded.Measure r with
  | Some s => includes (toLowerCase s) word
  | None => false
  end.

(** The rows of the year and nutrient type asked for whose label has
    "surplus". *)
Definition Loaded_surplus_rows (nutrient : string) (year0 : number)
    (rows : list Loaded.EnvDataRecord) : list Loaded.EnvDataRecord :=
  filter
    (λ r, PrimFloat.eqb (Loaded.year r) year0 = true /\
          Loaded.nutrient_type r = Some nutrient /\
          Loaded_has_word "surplus" r = true)
    rows.

(** The nitrogen-input rows and the livestock rows of a year. *)
Definition Loaded_nitrogen_rows (year0 : number)
    (rows : list Loaded.EnvDataRecord) : list Loaded.EnvDataRecord :=
  filter
    (λ r, Loaded.nutrient_type r = Some "Nitrogen" /\
          Loaded_has_word "input" r = true /\
          PrimFloat.eqb (Loaded.year r) year0 = true)
    rows.

Definition Loaded_livestock_rows (year0 : number)
    (rows : list Loaded.EnvDataRecord) : list Loaded.EnvDataRecord :=
  filter
    (λ r, Loaded_has_word "livestock" r = true /\
          PrimFloat.eqb (Loaded.year r) year0 = true)
    rows.

(** The rows of country [c], which may be the missing code. *)
Definition Loaded_rows_of (c : option string)
    (rows : list Loaded.EnvDataRecord) : list Loaded.EnvDataRecord :=
  filter (λ r, Loaded.country_code r = c) rows.

(** The joined pair of country [c]: the value, as it is, of the last row
    of the first subset for [c], and the values of the rows of the second
    subset for [c] added from left to right to the seed [0]. *)
Definition Loaded_joined_pair (first second : list Loaded.EnvDataRecord)
    (c : option string) : Loaded.ScatterPoint.t :=
  {| Loaded.ScatterPoint.country := c;
     Loaded.ScatterPoint.nitrogen :=
       default 0%float (last (Loaded.value <$> Loaded_rows_of c first));
     Loaded.ScatterPoint.livestock :=
       fold_left (fun acc r => (acc + Loaded.value r)%float)
         (Loaded_rows_of c second) 0%float |}.

(** ** Vocabulary of the specification *)






(** [out] holds one tuple per record of [R] whose measure is [M], in the
    order of [R], and nothing else. *)
Inductive one_tuple_per_match (M : string)
  : list EnvData -> list FilteredTuple.t -> Prop :=
| tuples_nil : one_tuple_per_match M [] []
| tuples_match d R out :
    Measure d = M ->
    one_tuple_per_match M R out ->
    one_tuple_per_match M (d :: R)
      (FilteredTuple.mk (country_code d) (year d) (value d) :: out)
| tuples_skip d R out :
    Measure d <> M ->
    one_tuple_per_match M R out ->
    one_tuple_per_match M (d :: R) out.

(** The number of records of [R] whose measure is [M]. *)
Definition count_measure (M : string) (R : list EnvData) : nat :=
  length (filter (λ d, Measure d = M) R).

(** The distinct elements of a list, each at the place of its first
    occurrence. *)
Fixpoint first_occurrences `{EqDecision A} (l : list A) : list A :=
  match l with
  | [] => []
  | x :: l' => x :: filter (λ y, y ≠ x) (first_occurrences l')
  end.

(** The rows of a subset that belong to country [c]. *)
Definition rows_of (c : string) (rows : list EnvData) : list EnvData :=
  filter (λ r, country_code r = c) rows.

(** The values of [rows] added up from left to right, starting from the
    seed [0]. *)
Definition sum_values (rows : list EnvData) : number :=
  fold_left (fun acc r => (acc + value r)%float) rows 0%float.

(** The value of the last row of [rows], if there is one. *)
Definition last_value (rows : list EnvData) : option number :=
  last (value <$> rows).

(** The joined pair of country [c]: the value of the last row of the first
    subset for [c] (or the seed [0] when there is none) and the sum of the
    values of the rows of the second subset for [c]. *)
Definition joined_pair (first second : list EnvData) (c : string)
  : ScatterPoint.t :=
  {| ScatterPoint.country := c;
     ScatterPoint.nitrogen := default 0%float (last_value (rows_of c first));
     ScatterPoint.livestock := sum_values (rows_of c second) |}.

(** Two rows are tuples for the same (year, country) pair: they have the
    same country code and their years index the same row of [grouped]. *)
Definition same_pair (d d' : EnvData) : Prop :=
  country_code d = country_code d' /\
  ToPropertyKey (year d) = ToPropertyKey (year d').

(** The field [c] of the row of key [k] holds [v]. *)
Definition field_is (k : spec_float) (c : string) (v : number)
    (grouped : list (spec_float * gmap string number)) : Prop :=
  exists r : gmap string number, Map_get k grouped = Some r /\ r !! c = Some v.

(** ** Record sets of the example scenarios *)

(** A row with the fields the functions read; the descriptive fields are
    left empty. *)
Definition row (country measure nutrient : string) (y v : number) : EnvData :=
  mkEnvData country "A" "" measure "" "" nutrient "" "" y v 0 "" "" 0 None.

(** Scenarios 3 and 4: one nitrogen-input row for ARG, two livestock rows
    for ARG and one for URY, which has no nitrogen-input row. *)
Definition scatter_rows : list EnvData :=
  [ row "ARG" "Nitrogen Input" "Nitrogen" 2000 10;
    row "ARG" "Livestock, cattle" "" 2000 3;
    row "URY" "Livestock, cattle" "" 2000 7;
    row "ARG" "Livestock, sheep" "" 2000 2 ].

(** Two tuples for 2001 under the country code [__proto__], with values
    0.9 then 1.1. *)
Definition proto_rows : list EnvData :=
  [ row "__proto__" "Producer Nominal Protection Coefficient" "" 2001 0.9;
    row "__proto__" "Producer Nominal Protection Coefficient" "" 2001 1.1 ].

(** Scenario 2: two ARG tuples for 2001, with values 0.9 then 1.1. *)
Definition series_rows : list EnvData :=
  [ row "ARG" "Producer Nominal Protection Coefficient" "" 2001 0.9;
    row "ARG" "Producer Nominal Protection Coefficient" "" 2001 1.1 ].

(** A loaded row without a [Measure], of nutrient type Nitrogen and year
    2000. *)
Definition row_without_Measure : Loaded.EnvDataRecord :=
  {| Loaded.Measure := None;
     Loaded.nutrient_type := Some "Nitrogen";
     Loaded.country_code := Some "ARG";
     Loaded.year := 2000;
     Loaded.value := 1 |}.

(** A loaded row that has a [Measure] but no country code, and whose
    value is not a number. *)
Definition row_without_country : Loaded.EnvDataRecord :=
  {| Loaded.Measure := Some "Nitrogen input";
     Loaded.nutrient_type := Some "Nitrogen";
     Loaded.country_code := None;
     Loaded.year := 2000;
     Loaded.value := nan |}.

(** ** [TimeSeries]: [chartData]

    [Object.values(grouped)] lists the rows by own property key: first the
    keys that are array indices (the integers from 0 to 2^32 - 2), in
    ascending order, then the other keys in the order in which they were
    created. *)
Definition array_index (k : spec_float) : option Z :=
  match k with
  | S754_zero _ => Some 0%Z
  | S754_finite false m e =>
      let n :=
        if (0 <=? e)%Z then Some (Z.pos m * 2 ^ e)%Z
        else if (Z.pos m mod 2 ^ (- e) =? 0)%Z then Some (Z.pos m / 2 ^ (- e))%Z
        else None in
      match n with
      | Some z => if (z <=? 4294967294)%Z then Some z else None
      | None => None
      end
  | _ => None
  end.

Fixpoint insert_index {V} (z : Z) (v : V) (l : list (Z * V)) : list (Z * V) :=
  match l with
  | [] => [(z, v)]
  | (z', v') :: l' =>
      if (z <? z')%Z then (z, v) :: l else (z', v') :: insert_index z v l'
  end.

Definition indexed_entries {V} (o : list (spec_float * V)) : list (Z * V) :=
  fold_right
    (fun e acc =>
       match array_index (fst e) with
       | Some z => insert_index z (snd e) acc
       | None => acc
       end)
    [] o.

Definition named_entries {V} (o : list (spec_float * V)) : list (spec_float * V) :=
  List.filter
    (fun e => match array_index (fst e) with Some _ => false | None => true end)
    o.

Definition Object_values {V} (o : list (spec_float * V)) : list V :=
  List.map snd (indexed_entries o) ++ List.map snd (named_entries o).

(** [Array.prototype.sort(comparefn)]: a stable sort; [x] goes before the
    first element that the comparison puts after it. For a comparison that
    is a consistent ordering this is the result of [sort]; for another one
    the engine chooses the order, of the same elements. *)
Fixpoint sort_insert {A} (comparefn : A -> A -> number) (x : A)
    (sorted : list A) : list A :=
  match sorted with
  | [] => [x]
  | y :: rest =>
      if PrimFloat.ltb 0 (comparefn y x) then x :: y :: rest
      else y :: sort_insert comparefn x rest
  end.

Definition Array_sort {A} (comparefn : A -> A -> number) (l : list A) : list A :=
  fold_left (fun sorted x => sort_insert comparefn x sorted) l [].

(** [a.year]: the field, or [undefined], which [-] reads as [NaN]. *)
Definition row_year (r : gmap string number) : number :=
  default nan (r !! "year").

Definition TimeSeries_chartData
    (data : list EnvData) (selectedCountries : list string)
  : list (gmap string number) :=
  Array_sort (fun a b => (row_year a - row_year b)%float)
    (Object_values (TimeSeries_grouped data selectedCountries)).

(** ** [pages/Dashboard.tsx]: the country options

    [new Set(values)] keeps the distinct values in the order in which they
    are first added, and [Array.from] lists them in that order. *)
Definition Set_add `{EqDecision A} (s : list A) (x : A) : list A :=
  if decide (x ∈ s) then s else s ++ [x].

Definition Set_new `{EqDecision A} (values : list A) : list A :=
  fold_left Set_add values [].

(** The object [{ value, label }]. *)
Module CountryOption.
Record t := mk { value : string; label : string }.
End CountryOption.

(** [typedData] is the loaded data, cast to [EnvData[]] without a check:
    a row may have no country code. *)
Definition uniqueCountries (typedData : list Loaded.EnvDataRecord)
  : list (option string) :=
  Set_new (List.map Loaded.country_code typedData).

(** [String(code)]: a string is itself, and a missing code, [undefined],
    is the string "undefined". *)
Definition JS_String (code : option string) : string :=
  match code with
  | Some s => s
  | None => "undefined"
  end.

Definition countryOptions (typedData : list Loaded.EnvDataRecord)
  : list CountryOption.t :=
  List.map
    (fun code => {| CountryOption.value := JS_String code;
                    CountryOption.label := JS_String code |})
    (uniqueCountries typedData).


(** ** [components/CountrySelector.tsx] *)

(** [handleChange]: the list that is handed to [onChange]. *)
Definition handleChange (selectedOptions : option (list CountryOption.t))
  : list string :=
  match selectedOptions with
  | Some opts => List.map CountryOption.value opts
  | None => []
  end.

(** The [value] of the select: [options.filter((opt) =>
    selected.includes(opt.value))]. *)
Definition Select_value (options : list CountryOption.t) (selected : list string)
  : list CountryOption.t :=
  List.filter
    (fun opt => Array_includes selected (CountryOption.value opt))
    options.

(** ** More vocabulary *)

(** The selected rows of [data] whose year has the property key [k]. *)
Definition rows_of_year (k : spec_float) (rows : list EnvData) : list EnvData :=
  filter (λ d, ToPropertyKey (year d) = k) rows.

(** The assignment [row[d.country_code] = d.value] of the grouping loop. *)
Definition assign_field (r : gmap string number) (d : EnvData)
  : gmap string number :=
  Object_set r (country_code d) (value d).

(** A loaded row has a [Measure]. *)
Definition has_Measure (r : Loaded.EnvDataRecord) : bool :=
  match Loaded.Measure r with
  | Some _ => true
  | None => false
  end.

(** A further record set: two years, three countries, and a row of another
    measure. *)
Definition series_rows2 : list EnvData :=
  [ row "BRA" "Producer Nominal Protection Coefficient" "" 2001 1.5;
    row "ARG" "Producer Nominal Protection Coefficient" "" 2000 1.25;
    row "ARG" "Producer Nominal Protection Coefficient" "" 2001 0.5;
    row "CHL" "Producer Nominal Protection Coefficient" "" 2000 3;
    row "BRA" "Nitrogen Input" "Nitrogen" 2000 10 ].

(** * Properties *)

(** ** Facts about [Map] *)
Section JSMap_facts.
Context {K V : Type} `{EqDecision K}.
Implicit Types (m : list (K * V)) (k : K) (v : V).

Lemma Map_get_set_eq k v m : Map_get k (Map_set k v m) = Some v.
Proof.
  induction m as [|[k0 v0] m IH]; simpl.
  - by rewrite decide_True.
  - destruct (decide (k0 = k)) as [->|Hne]; simpl.
    + by rewrite decide_True.
    + by rewrite decide_False.
Qed.

Lemma Map_get_set_ne k k' v m :
  k ≠ k' → Map_get k' (Map_set k v m) = Map_get k' m.
Proof.
  intros Hne. induction m as [|[k0 v0] m IH]; simpl.
  - by rewrite decide_False.
  - destruct (decide (k0 = k)) as [->|Hne0]; simpl.
    + by rewrite !decide_False.
    + by rewrite IH.
Qed.

Lemma Map_get_is_Some k m : is_Some (Map_get k m) ↔ k ∈ Map_keys m.
Proof.
  unfold Map_keys. induction m as [|[k0 v0] m IH]; simpl.
  - split; [by intros [? ?] | by intros ?%elem_of_nil].
  - rewrite elem_of_cons. destruct (decide (k0 = k)) as [->|Hne].
    + split; eauto.
    + rewrite IH. split; [by right|]. intros [Heq|Hin]; [congruence|done].
Qed.

Lemma Map_get_None k m : Map_get k m = None ↔ k ∉ Map_keys m.
Proof. rewrite <- Map_get_is_Some, eq_None_not_Some. done. Qed.

Lemma Map_keys_set_present k v m :
  k ∈ Map_keys m → Map_keys (Map_set k v m) = Map_keys m.
Proof.
  unfold Map_keys. induction m as [|[k0 v0] m IH]; simpl.
  - by intros ?%elem_of_nil.
  - rewrite elem_of_cons. intros Hin.
    destruct (decide (k0 = k)) as [->|Hne]; simpl; [done|].
    f_equal. apply IH. destruct Hin as [Heq|Hin]; [congruence|done].
Qed.

Lemma Map_keys_set_fresh k v m :
  k ∉ Map_keys m → Map_keys (Map_set k v m) = Map_keys m ++ [k].
Proof.
  unfold Map_keys. induction m as [|[k0 v0] m IH]; simpl; [done|].
  rewrite not_elem_of_cons. intros [Hne Hnin].
  rewrite decide_False by done. simpl. by rewrite IH.
Qed.

Lemma Map_set_set k v v' m :
  Map_set k v (Map_set k v' m) = Map_set k v m.
Proof.
  induction m as [|[k0 v0] m IH]; simpl.
  - by rewrite decide_True.
  - destruct (decide (k0 = k)) as [->|Hne]; simpl.
    + by rewrite decide_True.
    + by rewrite decide_False, IH.
Qed.

Lemma Map_set_NoDup k v m :
  NoDup (Map_keys m) -> NoDup (Map_keys (Map_set k v m)).
Proof.
  intros Hnd. destruct (decide (k ∈ Map_keys m)) as [Hin|Hnin].
  - by rewrite Map_keys_set_present.
  - rewrite Map_keys_set_fresh by done.
    apply NoDup_app. split; [done|]. split; [|apply NoDup_singleton].
    by intros x Hx ->%list_elem_of_singleton.
Qed.

(** With distinct keys, every entry is the one [get] finds. *)
Lemma Map_entries_get m :
  NoDup (Map_keys m) → Forall (λ e, Map_get e.1 m = Some e.2) m.
Proof.
  unfold Map_keys. induction m as [|[k0 v0] m IH]; simpl; [constructor|].
  rewrite NoDup_cons. intros [Hnin Hnd]. constructor; simpl.
  - by rewrite decide_True.
  - specialize (IH Hnd). rewrite Forall_forall in IH |- *.
    intros [k v] Hin. simpl. rewrite decide_False; [by apply (IH (k, v))|].
    intros ->. apply Hnin. by apply (list_elem_of_fmap_2 fst _ (k, v)).
Qed.
End JSMap_facts.

(** ** Strings *)

Lemma toLowerCase_Surplus : toLowerCase "Surplus" = "surplus".
Proof. reflexivity. Qed.

Lemma toLowerCase_surplus : toLowerCase "surplus" = "surplus".
Proof. reflexivity. Qed.

(** The Kelvin sign is lower-cased to the letter k. *)
Example toLowerCase_KELVIN_SIGN :
  toLowerCase
    ("Livestoc" +:+
     String (ascii_of_N 226) (String (ascii_of_N 132)
       (String (ascii_of_N 170) EmptyString)))
  = "livestock".
Proof. reflexivity. Qed.

Lemma prefix_append w s :
  String.prefix w s = true <-> exists post, s = w +:+ post.
Proof.
  revert s. induction w as [|a w IH]; intros s.
  - destruct s; simpl; split; eauto.
  - destruct s as [|b s]; simpl.
    + split; [done|]. by intros [post ?].
    + destruct (ascii_dec a b) as [->|Hne].
      * rewrite IH. split; intros [post Hp]; exists post.
        -- by rewrite Hp.
        -- by injection Hp.
      * split; [done|]. intros [post Hp]. injection Hp. done.
Qed.

(** [includes] holds exactly when the word occurs somewhere in the
    string. *)
Lemma includes_occurs s w :
  includes s w = true <-> exists pre post, s = pre +:+ w +:+ post.
Proof.
  induction s as [|c s IH]; cbn [includes].
  - rewrite orb_false_r, prefix_append. split.
    + intros [post ->]. by exists "", post.
    + intros ([|? pre] & post & Hs); [eauto|done].
  - rewrite orb_true_iff, prefix_append, IH. split.
    + intros [[post ->]|(pre & post & ->)].
      * by exists "", post.
      * by exists (String c pre), post.
    + intros ([|c' pre] & post & Hs).
      * left. eauto.
      * right. exists pre, post. by injection Hs.
Qed.

(** ** [filter] *)

Lemma List_filter_false {A} (f : A -> bool) (l : list A) :
  (forall x, f x = false) -> List.filter f l = [].
Proof.
  intros Hf. induction l as [|x l IH]; simpl; [done|]. by rewrite Hf.
Qed.

Lemma Array_filter_ext {A} (f g : A -> Completion bool) l :
  (forall x, f x = g x) -> Array_filter f l = Array_filter g l.
Proof.
  intros Hfg. induction l as [|x l IH]; simpl; [done|].
  by rewrite Hfg, IH.
Qed.

(** A callback that never throws makes [Array_filter] the plain filter. *)
Lemma Array_filter_Normal {A} (f : A -> bool) l :
  Array_filter (fun x => Normal (f x)) l = Normal (List.filter f l).
Proof.
  induction l as [|x l IH]; simpl; [done|].
  rewrite IH. simpl. by destruct (f x).
Qed.

(** ** [filterProtectionCoefficient] *)

Lemma filterProtectionCoefficient_cons d R :
  filterProtectionCoefficient (d :: R) =
  if decide (Measure d = "Producer Nominal Protection Coefficient")
  then FilteredTuple.mk (country_code d) (year d) (value d)
         :: filterProtectionCoefficient R
  else filterProtectionCoefficient R.
Proof.
  unfold filterProtectionCoefficient. simpl.
  destruct (String.eqb_spec (Measure d)
              "Producer Nominal Protection Coefficient") as [Heq|Hne].
  - by rewrite decide_True.
  - by rewrite decide_False.
Qed.

(** C1. For every record set R, [filterProtectionCoefficient] returns one
    [{country, year, value}] tuple per record of R whose [Measure] is
    exactly "Producer Nominal Protection Coefficient", in the order of R;
    the length of the result is the number of such records; with no such
    record the result is the empty sequence. *)
Theorem filterProtectionCoefficient_exact (R : list EnvData) :
  one_tuple_per_match "Producer Nominal Protection Coefficient" R
    (filterProtectionCoefficient R) /\
  length (filterProtectionCoefficient R) =
    count_measure "Producer Nominal Protection Coefficient" R /\
  (count_measure "Producer Nominal Protection Coefficient" R = 0 ->
   filterProtectionCoefficient R = []).
Proof.
  assert (Hlen : forall R', length (filterProtectionCoefficient R') =
                 count_measure "Producer Nominal Protection Coefficient" R').
  { unfold count_measure. induction R' as [|d R' IH]; [done|].
    rewrite filterProtectionCoefficient_cons, filter_cons.
    case_decide; simpl; by rewrite IH. }
  split; [|split; [done|]].
  - clear Hlen. induction R as [|d R IH]; [constructor|].
    rewrite filterProtectionCoefficient_cons.
    case_decide; [by apply tuples_match | by apply tuples_skip].
  - intros H0. apply nil_length_inv. by rewrite Hlen.
Qed.

(** The comparison is case-sensitive: a label that differs in case only is
    not selected. *)
Example filterProtectionCoefficient_case_sensitive :
  filterProtectionCoefficient
    [mkEnvData "ARG" "" "" "producer nominal protection coefficient"
       "" "" "" "" "" 2000 1.5 0 "" "" 0 None] = [].
Proof. reflexivity. Qed.

(** Scenario 1 of the specification. *)
Example filterProtectionCoefficient_scenario :
  filterProtectionCoefficient
    [ row "ARG" "Producer Nominal Protection Coefficient" "" 2000 1.2;
      row "BRA" "Other" "" 2000 5 ]
  = [ FilteredTuple.mk "ARG" 2000 1.2 ].
Proof. reflexivity. Qed.

(** A value that is not a number is handed on as it is. *)
Example filterProtectionCoefficient_nan :
  filterProtectionCoefficient
    [ row "ARG" "Producer Nominal Protection Coefficient" "" 2000 nan ]
  = [ FilteredTuple.mk "ARG" 2000 nan ].
Proof. reflexivity. Qed.

(** ** The keyword filters *)










(** C9. [groupByMeasure] and [getNutrientSurplusByCountry] compute the same
    function: for every record set, year and nutrient in
    {"Nitrogen", "Phosphorus"} they return the same list of records; on
    rows as loaded they also agree on whether the call throws. *)
Theorem groupByMeasure_getNutrientSurplusByCountry
    (data : list EnvData) (rows : list Loaded.EnvDataRecord)
    (nutrient : NutrientName) (year0 : number) :
  groupByMeasure data (nutrient_string nutrient) year0 =
  getNutrientSurplusByCountry data nutrient year0 /\
  Loaded.groupByMeasure rows (nutrient_string nutrient) year0 =
  Loaded.getNutrientSurplusByCountry rows nutrient year0.
Proof.
  split.
  - unfold groupByMeasure, getNutrientSurplusByCountry.
    apply List.filter_ext. intros d. f_equal. apply andb_comm.
  - unfold Loaded.groupByMeasure, Loaded.getNutrientSurplusByCountry.
    apply Array_filter_ext. intros d. f_equal. apply andb_comm.
Qed.

(** C7. Given the empty record set, [filterProtectionCoefficient],
    [getNutrientSurplusByCountry], [getScatterData] and [groupByMeasure]
    return the empty sequence whatever the other arguments are, and the
    call completes normally. *)
Theorem empty_input
    (nutrient : NutrientName) (nutrient' : string) (year0 : number) :
  (filterProtectionCoefficient [] = [] /\
   getNutrientSurplusByCountry [] nutrient year0 = [] /\
   getScatterData [] year0 = [] /\
   groupByMeasure [] nutrient' year0 = []) /\
  (Loaded.filterProtectionCoefficient [] = Normal [] /\
   Loaded.getNutrientSurplusByCountry [] nutrient year0 = Normal [] /\
   Loaded.getScatterData [] year0 = Normal [] /\
   Loaded.groupByMeasure [] nutrient' year0 = Normal []).
Proof. repeat split. Qed.

(** ** First occurrences *)

Section first_occurrences.
Context `{EqDecision A}.
Implicit Types (l : list A) (x : A).

Lemma elem_of_first_occurrences x l : x ∈ first_occurrences l ↔ x ∈ l.
Proof.
  induction l as [|y l IH]; simpl; [done|].
  rewrite !elem_of_cons, list_elem_of_filter, IH.
  split; [intros [Heq|[_ Hin]]; auto|].
  intros [Heq|Hin]; [by left|].
  destruct (decide (x = y)); auto.
Qed.

Lemma NoDup_first_occurrences l : NoDup (first_occurrences l).
Proof.
  induction l as [|y l IH]; simpl; [constructor|].
  apply NoDup_cons. split.
  - rewrite list_elem_of_filter. by intros [Hne _].
  - by apply NoDup_filter.
Qed.

Lemma first_occurrences_length l : length (first_occurrences l) <= length l.
Proof.
  induction l as [|y l IH]; simpl; [done|].
  etrans; [apply le_n_S, length_filter|]. lia.
Qed.

Example first_occurrences_example :
  first_occurrences ["BRA"; "ARG"; "BRA"; "CHL"; "ARG"] = ["BRA"; "ARG"; "CHL"].
Proof. reflexivity. Qed.

(** Dropping what is already known, before or after. *)
Lemma filter_known_present x (known : list A) l :
  x ∈ known ->
  filter (λ y, y ∉ known) (filter (λ y, y ≠ x) l) =
  filter (λ y, y ∉ known) l.
Proof.
  intros Hin. apply list_filter_filter_l. intros y Hy ->. by apply Hy.
Qed.

Lemma filter_known_fresh x (known : list A) l :
  filter (λ y, y ∉ known ++ [x]) l =
  filter (λ y, y ∉ known) (filter (λ y, y ≠ x) l).
Proof.
  rewrite list_filter_filter. apply list_filter_iff. intros y.
  rewrite not_elem_of_app, list_elem_of_singleton. done.
Qed.
End first_occurrences.

(** ** [getScatterData]: the two passes over the lookup map *)

Lemma seed_row_keys_step (m : list (string * ScatterEntry)) r :
  Map_keys (seed_row m r) =
  if decide (country_code r ∈ Map_keys m) then Map_keys m
  else Map_keys m ++ [country_code r].
Proof.
  unfold seed_row. case_decide.
  - by apply Map_keys_set_present.
  - by apply Map_keys_set_fresh.
Qed.

Lemma seed_row_keys rows (m : list (string * ScatterEntry)) :
  Map_keys (fold_left seed_row rows m) =
  Map_keys m ++
  filter (λ c, c ∉ Map_keys m) (first_occurrences (country_code <$> rows)).
Proof.
  revert m. induction rows as [|r rows IH]; intros m.
  - simpl. by rewrite app_nil_r.
  - cbn [fold_left]. rewrite IH, seed_row_keys_step.
    rewrite fmap_cons. cbn [first_occurrences].
    case_decide as Hin.
    + rewrite filter_cons_False by (by intros Hn; apply Hn).
      by rewrite filter_known_present.
    + rewrite filter_cons_True by done.
      by rewrite filter_known_fresh, <- app_assoc.
Qed.

Lemma seed_row_get c rows (m : list (string * ScatterEntry)) :
  Map_get c (fold_left seed_row rows m) =
  match last_value (rows_of c rows) with
  | Some v => Some {| nitrogen := v; livestock := 0%float |}
  | None => Map_get c m
  end.
Proof.
  unfold last_value, rows_of.
  revert m. induction rows as [|r rows IH]; intros m; simpl; [done|].
  rewrite IH, filter_cons. unfold seed_row at 1.
  destruct (decide (country_code r = c)) as [<-|Hne].
  - rewrite fmap_cons, last_cons, Map_get_set_eq.
    by destruct (last _).
  - by rewrite Map_get_set_ne.
Qed.

Lemma add_livestock_keys rows (m : list (string * ScatterEntry)) :
  Map_keys (fold_left add_livestock rows m) = Map_keys m.
Proof.
  revert m. induction rows as [|r rows IH]; intros m; simpl; [done|].
  rewrite IH. unfold add_livestock.
  destruct (Map_get (country_code r) m) eqn:Hget; [|done].
  apply Map_keys_set_present, Map_get_is_Some. by rewrite Hget.
Qed.

Lemma add_livestock_get c rows (m : list (string * ScatterEntry)) :
  Map_get c (fold_left add_livestock rows m) =
  (λ e, {| nitrogen := nitrogen e;
           livestock := fold_left (fun acc r => (acc + value r)%float)
                          (rows_of c rows) (livestock e) |})
    <$> Map_get c m.
Proof.
  unfold rows_of.
  revert m. induction rows as [|r rows IH]; intros m; simpl.
  - by destruct (Map_get c m) as [[]|].
  - rewrite IH, filter_cons. unfold add_livestock.
    destruct (decide (country_code r = c)) as [<-|Hne].
    + destruct (Map_get (country_code r) m) as [e|] eqn:Hget.
      * by rewrite Map_get_set_eq.
      * by rewrite Hget.
    + destruct (Map_get (country_code r) m) as [e|] eqn:Hget; [|done].
      by rewrite Map_get_set_ne.
Qed.

Lemma filter_all {A} (P : A -> Prop) `{!∀ x, Decision (P x)} (l : list A) :
  (forall x, P x) -> filter P l = l.
Proof.
  intros HP. induction l as [|x l IH]; [done|].
  by rewrite filter_cons_True, IH.
Qed.

Lemma filter_none {A} (P : A -> Prop) `{!∀ x, Decision (P x)} (l : list A) :
  (forall x, x ∈ l -> ¬ P x) -> filter P l = [].
Proof.
  induction l as [|x l IH]; intros HP; [done|].
  rewrite filter_cons_False by (apply HP; left).
  apply IH. intros y Hy. apply HP. by right.
Qed.

(** The result of [getScatterData], country by country. *)
Lemma getScatterData_joined data year0 :
  getScatterData data year0 =
  joined_pair (nitrogenInput data year0) (livestockRows data year0)
    <$> first_occurrences (country_code <$> nitrogenInput data year0).
Proof.
  unfold getScatterData.
  set (first := nitrogenInput data year0).
  set (second := livestockRows data year0).
  set (map2 := fold_left add_livestock second (fold_left seed_row first [])).
  assert (Hkeys : Map_keys map2 = first_occurrences (country_code <$> first)).
  { unfold map2. rewrite add_livestock_keys, seed_row_keys. simpl.
    apply filter_all. intros c Hc. by apply elem_of_nil in Hc. }
  assert (Hget : forall c, Map_get c map2 =
            (λ v, {| nitrogen := v; livestock := sum_values (rows_of c second) |})
              <$> last_value (rows_of c first)).
  { intros c. unfold map2. rewrite add_livestock_get, seed_row_get.
    by destruct (last_value (rows_of c first)). }
  assert (Hent : Forall (λ e, Map_get e.1 map2 = Some e.2) map2).
  { apply Map_entries_get. rewrite Hkeys. apply NoDup_first_occurrences. }
  rewrite <- Hkeys. unfold Map_keys.
  change (List.map fst map2) with (fst <$> map2).
  rewrite <- list_fmap_compose.
  apply Forall_fmap_ext. eapply Forall_impl; [exact Hent|].
  intros [c e] He. simpl in *. rewrite Hget in He. unfold joined_pair.
  destruct (last_value (rows_of c first)) as [v|]; simplify_eq/=. done.
Qed.

Lemma getScatterData_countries data year0 :
  ScatterPoint.country <$> getScatterData data year0 =
  first_occurrences (country_code <$> nitrogenInput data year0).
Proof.
  rewrite getScatterData_joined, <- list_fmap_compose.
  apply list_fmap_id.
Qed.

Lemma getScatterData_elem_of data year0 p :
  p ∈ getScatterData data year0 ->
  ScatterPoint.country p ∈ country_code <$> nitrogenInput data year0 /\
  p = joined_pair (nitrogenInput data year0) (livestockRows data year0)
        (ScatterPoint.country p).
Proof.
  rewrite getScatterData_joined, list_elem_of_fmap.
  intros (c & -> & Hc). rewrite elem_of_first_occurrences in Hc.
  split; [exact Hc | reflexivity].
Qed.


(** C3. The second pass accumulates: for every record set and year and
    every country c of the first (nitrogen-input) subset, the result has a
    pair for c, and the [livestock] field of a pair for c is the sum of the
    values of all rows of the second (livestock) subset for c, added to the
    seed 0 in the order of the rows; it is the seed 0 when that subset has
    no row for c. *)
Theorem getScatterData_accumulates data year0 (c : string) :
  c ∈ country_code <$> nitrogenInput data year0 ->
  (exists p, p ∈ getScatterData data year0 /\ ScatterPoint.country p = c) /\
  (forall p, p ∈ getScatterData data year0 -> ScatterPoint.country p = c ->
     ScatterPoint.livestock p =
       sum_values (rows_of c (livestockRows data year0)) /\
     (c ∉ country_code <$> livestockRows data year0 ->
      ScatterPoint.livestock p = 0%float)).
Proof.
  intros Hc. split.
  - rewrite <- elem_of_first_occurrences in Hc.
    rewrite <- getScatterData_countries in Hc.
    apply list_elem_of_fmap in Hc as (p & -> & Hp). eauto.
  - intros p [_ ->]%getScatterData_elem_of <-. simpl. split; [done|].
    intros Hnone. unfold rows_of. rewrite filter_none; [done|].
    intros r Hr Heq. apply Hnone.
    rewrite <- Heq. by apply list_elem_of_fmap_2.
Qed.

Lemma getScatterData_accumulates_witness :
  "ARG" ∈ country_code <$> nitrogenInput scatter_rows 2000 /\
  (exists p, p ∈ getScatterData scatter_rows 2000 /\
             ScatterPoint.country p = "ARG" /\
             ScatterPoint.livestock p = 5%float).
Proof.
  assert (Hin : "ARG" ∈ country_code <$> nitrogenInput scatter_rows 2000).
  { vm_compute. left. }
  split; [exact Hin|].
  destruct (getScatterData_accumulates scatter_rows 2000 "ARG" Hin)
    as [(p & Hp & Hc) Hsum].
  exists p. split; [exact Hp|]. split; [exact Hc|].
  exact (proj1 (Hsum p Hp Hc)).
Defined.

(** C4. The join is a left join on the countries of the first subset: for
    every record set and year, a country that has no row in the first
    (nitrogen-input) subset is the country of no pair of the result,
    whatever rows it has in the second (livestock) subset. *)
Theorem getScatterData_left_join data year0 (c : string) :
  c ∉ country_code <$> nitrogenInput data year0 ->
  c ∉ ScatterPoint.country <$> getScatterData data year0.
Proof.
  intros Hc. by rewrite getScatterData_countries, elem_of_first_occurrences.
Qed.

Lemma getScatterData_left_join_witness :
  ("URY" ∈ country_code <$> livestockRows scatter_rows 2000) /\
  ("URY" ∉ country_code <$> nitrogenInput scatter_rows 2000) /\
  ("URY" ∉ ScatterPoint.country <$> getScatterData scatter_rows 2000).
Proof.
  assert (Hnin : "URY" ∉ country_code <$> nitrogenInput scatter_rows 2000).
  { vm_compute. by intros [Heq|Hnil%elem_of_nil]%elem_of_cons. }
  split; [vm_compute; right; left|].
  split; [exact Hnin|].
  exact (getScatterData_left_join scatter_rows 2000 "URY" Hnin).
Defined.

(** C6. The pairs of the result stand in the insertion order of the lookup
    map: the countries of the result, in order, are the countries of the
    first (nitrogen-input) subset, each at the place where it is first
    met. *)
Theorem getScatterData_insertion_order data year0 :
  ScatterPoint.country <$> getScatterData data year0 =
  first_occurrences (country_code <$> nitrogenInput data year0).
Proof. apply getScatterData_countries. Qed.


(** ** [TimeSeries]: the grouping loop *)

Lemma Object_set_lookup_eq (r : gmap string number) c v :
  c <> "__proto__" -> Object_set r c v !! c = Some v.
Proof.
  intros Hc. unfold Object_set. rewrite decide_False by done.
  apply lookup_insert_eq.
Qed.

Lemma Object_set_lookup_ne (r : gmap string number) c c' v :
  c' <> c -> Object_set r c' v !! c = r !! c.
Proof.
  intros Hc. unfold Object_set. case_decide; [done|].
  by apply lookup_insert_ne.
Qed.

Lemma Object_set_proto (r : gmap string number) v :
  Object_set r "__proto__" v = r.
Proof. done. Qed.

(** The row that [group_row] assigns to is the row of [d.year], created
    on the spot when [grouped] has none. *)
Lemma group_row_eq grouped d :
  group_row grouped d =
  Map_set (ToPropertyKey (year d))
    (Object_set
       (default {[ "year" := year d ]}
          (Map_get (ToPropertyKey (year d)) grouped))
       (country_code d) (value d))
    grouped.
Proof.
  unfold group_row.
  destruct (Map_get (ToPropertyKey (year d)) grouped) as [row0|] eqn:Hget.
  - by rewrite Hget.
  - by rewrite Map_get_set_eq, Map_set_set.
Qed.

Lemma group_row_sets grouped d :
  country_code d <> "__proto__" ->
  field_is (ToPropertyKey (year d)) (country_code d) (value d)
    (group_row grouped d).
Proof.
  intros Hc. rewrite group_row_eq. eexists. split; [apply Map_get_set_eq|].
  by apply Object_set_lookup_eq.
Qed.

Lemma group_row_keeps grouped d k c v :
  ¬ (country_code d = c /\ ToPropertyKey (year d) = k) ->
  field_is k c v grouped -> field_is k c v (group_row grouped d).
Proof.
  intros Hother (r & Hget & Hr). rewrite group_row_eq. unfold field_is.
  destruct (decide (ToPropertyKey (year d) = k)) as [<-|Hk].
  - rewrite Map_get_set_eq, Hget. eexists. split; [done|]. simpl.
    rewrite Object_set_lookup_ne; [done|]. intros Hc. by apply Hother.
  - rewrite Map_get_set_ne by done. eauto.
Qed.

Lemma group_rows_keep rows grouped k c v :
  Forall (λ d, ¬ (country_code d = c /\ ToPropertyKey (year d) = k)) rows ->
  field_is k c v grouped -> field_is k c v (fold_left group_row rows grouped).
Proof.
  revert grouped. induction rows as [|d rows IH]; intros grouped; [done|].
  intros [Hd Hrows]%Forall_cons Hf. simpl.
  by apply IH, group_row_keeps.
Qed.

(** [grouped] has one row per year. *)
Lemma TimeSeries_grouped_NoDup data selectedCountries :
  NoDup (Map_keys (TimeSeries_grouped data selectedCountries)).
Proof.
  unfold TimeSeries_grouped.
  assert (Hnil : NoDup (Map_keys (@nil (spec_float * gmap string float))))
    by constructor.
  revert Hnil. generalize (@nil (spec_float * gmap string float)).
  induction (TimeSeries_filtered data selectedCountries) as [|d rows IH];
    intros grouped Hnd; [done|].
  simpl. apply IH. rewrite group_row_eq. by apply Map_set_NoDup.
Qed.

Lemma Array_includes_elem_of l (x : string) :
  Array_includes l x = true <-> x ∈ l.
Proof.
  unfold Array_includes. rewrite existsb_exists. split.
  - intros (y & Hy%list_elem_of_In & ->%String.eqb_eq). done.
  - intros Hx. exists x. split; [by apply list_elem_of_In|apply String.eqb_refl].
Qed.

Lemma TimeSeries_filtered_app l1 l2 selectedCountries :
  TimeSeries_filtered (l1 ++ l2) selectedCountries =
  TimeSeries_filtered l1 selectedCountries ++
  TimeSeries_filtered l2 selectedCountries.
Proof. apply List.filter_app. Qed.

Lemma TimeSeries_filtered_selected d l selectedCountries :
  Measure d = "Producer Nominal Protection Coefficient" ->
  country_code d ∈ selectedCountries ->
  TimeSeries_filtered (d :: l) selectedCountries =
  d :: TimeSeries_filtered l selectedCountries.
Proof.
  intros HM Hsel. unfold TimeSeries_filtered. simpl.
  rewrite HM, String.eqb_refl.
  by rewrite (proj2 (Array_includes_elem_of _ _) Hsel).
Qed.

Lemma TimeSeries_filtered_elem_of d l selectedCountries :
  d ∈ TimeSeries_filtered l selectedCountries ->
  d ∈ l /\ Measure d = "Producer Nominal Protection Coefficient".
Proof.
  unfold TimeSeries_filtered. rewrite !list_elem_of_In, List.filter_In.
  intros [Hd [HM _]%andb_true_iff]. by apply String.eqb_eq in HM.
Qed.

(** Under every country code but [__proto__] the grouping overwrites: when
    the record sequence holds a tuple d1 and later a tuple d2 for the same
    (year, country) pair, both of the charted measure and of a selected
    country, and no tuple of the charted measure for the pair comes after
    d2, the field of that country in the row of that year is the value of
    d2, not a sum. *)
Lemma TimeSeries_last_value_wins
    (data : list EnvData) (selectedCountries : list string)
    (pre : list EnvData) (d1 : EnvData) (mid : list EnvData) (d2 : EnvData)
    (post : list EnvData) :
  data = pre ++ d1 :: mid ++ d2 :: post ->
  Measure d1 = "Producer Nominal Protection Coefficient" ->
  Measure d2 = "Producer Nominal Protection Coefficient" ->
  same_pair d1 d2 ->
  country_code d2 ∈ selectedCountries ->
  country_code d2 <> "__proto__" ->
  Forall (λ d, Measure d = "Producer Nominal Protection Coefficient" ->
               ¬ same_pair d d2) post ->
  exists r : gmap string number,
    Map_get (ToPropertyKey (year d2))
      (TimeSeries_grouped data selectedCountries) = Some r /\
    r !! country_code d2 = Some (value d2).
Proof.
  intros -> _ HM2 _ Hsel Hproto Hpost.
  change (field_is (ToPropertyKey (year d2)) (country_code d2) (value d2)
            (TimeSeries_grouped (pre ++ d1 :: mid ++ d2 :: post)
               selectedCountries)).
  unfold TimeSeries_grouped.
  rewrite (app_assoc pre (d1 :: mid) (d2 :: post) : pre ++ d1 :: mid ++ _ = _).
  rewrite TimeSeries_filtered_app, TimeSeries_filtered_selected by done.
  rewrite fold_left_app. simpl.
  apply group_rows_keep; [|by apply group_row_sets].
  rewrite Forall_forall in Hpost. apply Forall_forall.
  intros d [Hd HM]%TimeSeries_filtered_elem_of [Hc Hk]. by apply (Hpost d).
Qed.

Lemma TimeSeries_last_value_wins_witness :
  same_pair (row "ARG" "Producer Nominal Protection Coefficient" "" 2001 0.9)
            (row "ARG" "Producer Nominal Protection Coefficient" "" 2001 1.1) /\
  exists r : gmap string number,
    Map_get (ToPropertyKey 2001) (TimeSeries_grouped series_rows ["ARG"])
      = Some r /\
    r !! "ARG" = Some 1.1%float.
Proof.
  assert (Hpair :
    same_pair (row "ARG" "Producer Nominal Protection Coefficient" "" 2001 0.9)
              (row "ARG" "Producer Nominal Protection Coefficient" "" 2001 1.1)).
  { split; reflexivity. }
  split; [exact Hpair|].
  apply (TimeSeries_last_value_wins series_rows ["ARG"] []
           (row "ARG" "Producer Nominal Protection Coefficient" "" 2001 0.9) []
           (row "ARG" "Producer Nominal Protection Coefficient" "" 2001 1.1) []).
  - reflexivity.
  - reflexivity.
  - reflexivity.
  - exact Hpair.
  - simpl. left.
  - done.
  - constructor.
Defined.

(** C2. The code at a failing input: two tuples of the charted measure for
    the year 2001 and the country code [__proto__], with the values 0.9
    then 1.1, the code selected. The row of 2001 is created, and it gets no
    field for that country code, neither 1.1 nor 0.9: the assignment at
    line 94 runs the setter of [Object.prototype] and stores nothing. *)
Theorem TimeSeries_proto_not_stored :
  TimeSeries_grouped proto_rows ["__proto__"] =
    [ (ToPropertyKey 2001, {[ "year" := 2001%float ]}) ] /\
  ({[ "year" := 2001%float ]} : gmap string number) !! "__proto__" = None.
Proof. split; [vm_compute; reflexivity | done]. Qed.

(** ** Rows as loaded *)

Lemma and_then_Normal a b : and_then a (Normal b) = Normal (a && b).
Proof. by destruct a. Qed.

Lemma Array_filter_fmap {A B} (f : A -> B) (callback : B -> Completion bool)
    (g : A -> bool) (l : list A) :
  (forall x, callback (f x) = Normal (g x)) ->
  Array_filter callback (f <$> l) = Normal (f <$> List.filter g l).
Proof.
  intros Hcb. induction l as [|x l IH]; [done|].
  rewrite fmap_cons. cbn [Array_filter List.filter].
  rewrite Hcb, IH. simpl. by destruct (g x).
Qed.

(** A callback that completes on every row makes the filter complete, and
    the result is a sub-sequence of the rows, each kept as it is. *)
Lemma Array_filter_completes {A} (callback : A -> Completion bool) (l : list A) :
  Forall (λ x, exists b, callback x = Normal b) l ->
  exists out, Array_filter callback l = Normal out /\ sublist out l.
Proof.
  induction 1 as [|x l [b Hb] _ (out & Hout & Hsub)]; simpl.
  - by exists [].
  - rewrite Hb, Hout. simpl. destruct b; eexists; split; try done.
    + by apply sublist_skip.
    + by apply sublist_cons.
Qed.

Section JSMap_inj.
Context {K K' V : Type} `{EqDecision K, EqDecision K'}.
Context (f : K -> K') `{!Inj (=) (=) f}.
Implicit Types (m : list (K * V)).

Lemma Map_get_inj k m :
  Map_get (f k) (prod_map f id <$> m) = Map_get k m.
Proof.
  induction m as [|[k0 v0] m IH]; [done|].
  rewrite fmap_cons. cbn [Map_get prod_map fst snd id].
  destruct (decide (k0 = k)) as [->|Hne].
  - by rewrite decide_True.
  - rewrite decide_False; [done|]. by intros ?%(inj f).
Qed.

Lemma Map_set_inj k (v : V) m :
  Map_set (f k) v (prod_map f id <$> m) = prod_map f id <$> Map_set k v m.
Proof.
  induction m as [|[k0 v0] m IH]; [done|].
  rewrite fmap_cons. cbn [Map_set prod_map fst snd id].
  destruct (decide (k0 = k)) as [->|Hne].
  - by rewrite decide_True.
  - rewrite decide_False; [by rewrite IH|]. by intros ?%(inj f).
Qed.
End JSMap_inj.

(** On rows that have the type [EnvData] the functions complete normally
    and return what the typed reading of [filter.ts] returns. *)
Lemma Loaded_filterProtectionCoefficient_typed data :
  Loaded.filterProtectionCoefficient (as_loaded <$> data) =
  Normal (tuple_as_loaded <$> filterProtectionCoefficient data).
Proof.
  unfold Loaded.filterProtectionCoefficient, filterProtectionCoefficient.
  f_equal. induction data as [|d data IH]; [done|].
  rewrite fmap_cons. cbn [List.filter as_loaded Loaded.Measure Loaded.strict_eq].
  destruct (String.eqb (Measure d) _); [|done].
  cbn [List.map]. rewrite fmap_cons. by f_equal.
Qed.

Lemma Loaded_getNutrientSurplusByCountry_typed data nutrient year0 :
  Loaded.getNutrientSurplusByCountry (as_loaded <$> data) nutrient year0 =
  Normal (as_loaded <$> getNutrientSurplusByCountry data nutrient year0).
Proof.
  apply Array_filter_fmap. intros d. apply and_then_Normal.
Qed.

Lemma Loaded_groupByMeasure_typed data nutrient year0 :
  Loaded.groupByMeasure (as_loaded <$> data) nutrient year0 =
  Normal (as_loaded <$> groupByMeasure data nutrient year0).
Proof.
  apply Array_filter_fmap. intros d. apply and_then_Normal.
Qed.

Lemma Loaded_seed_row_typed rows (m : list (string * ScatterEntry)) :
  fold_left Loaded.seed_row (as_loaded <$> rows) (prod_map Some id <$> m) =
  prod_map Some id <$> fold_left seed_row rows m.
Proof.
  revert m. induction rows as [|r rows IH]; intros m; [done|].
  rewrite fmap_cons. cbn [fold_left]. rewrite <- IH. f_equal.
  unfold Loaded.seed_row, seed_row. simpl. by rewrite (Map_set_inj Some).
Qed.

Lemma Loaded_add_livestock_typed rows (m : list (string * ScatterEntry)) :
  fold_left Loaded.add_livestock (as_loaded <$> rows)
    (prod_map Some id <$> m) =
  prod_map Some id <$> fold_left add_livestock rows m.
Proof.
  revert m. induction rows as [|r rows IH]; intros m; [done|].
  rewrite fmap_cons. cbn [fold_left]. rewrite <- IH. f_equal.
  unfold Loaded.add_livestock, add_livestock. simpl.
  rewrite (Map_get_inj Some).
  destruct (Map_get (country_code r) m); [|done].
  by rewrite (Map_set_inj Some).
Qed.

Lemma Loaded_nitrogenInput_typed data year0 :
  Loaded.nitrogenInput (as_loaded <$> data) year0 =
  Normal (as_loaded <$> nitrogenInput data year0).
Proof.
  apply Array_filter_fmap. intros d.
  cbn [as_loaded Loaded.nutrient_type Loaded.strict_eq
       Loaded.Measure_includes Loaded.Measure Loaded.year].
  by rewrite and_then_Normal.
Qed.

Lemma Loaded_livestockRows_typed data year0 :
  Loaded.livestockRows (as_loaded <$> data) year0 =
  Normal (as_loaded <$> livestockRows data year0).
Proof. by apply Array_filter_fmap. Qed.

Lemma Loaded_getScatterData_typed data year0 :
  Loaded.getScatterData (as_loaded <$> data) year0 =
  Normal (point_as_loaded <$> getScatterData data year0).
Proof.
  unfold Loaded.getScatterData.
  rewrite Loaded_nitrogenInput_typed, Loaded_livestockRows_typed.
  cbn [mbind Completion_bind]. f_equal.
  change (@nil (option string * ScatterEntry))
    with (prod_map (@Some string) (@id ScatterEntry) <$> []).
  rewrite Loaded_seed_row_typed, Loaded_add_livestock_typed.
  unfold getScatterData.
  generalize (fold_left add_livestock (livestockRows data year0)
                (fold_left seed_row (nitrogenInput data year0) [])).
  intros m. induction m as [|[c e] m IH]; [done|].
  rewrite fmap_cons. cbn [List.map]. rewrite fmap_cons. f_equal. exact IH.
Qed.

Lemma Measure_includes_completes (r : Loaded.EnvDataRecord) word :
  is_Some (Loaded.Measure r) ->
  exists b, Loaded.Measure_includes r word = Normal b.
Proof. intros [s Hs]. unfold Loaded.Measure_includes. rewrite Hs. eauto. Qed.

Lemma Loaded_nitrogenInput_completes rows year0 :
  Forall (λ r, is_Some (Loaded.Measure r)) rows ->
  exists out, Loaded.nitrogenInput rows year0 = Normal out.
Proof.
  intros HM.
  destruct (Array_filter_completes
              (fun d =>
                 b ← and_then (Loaded.strict_eq (Loaded.nutrient_type d)
                                 "Nitrogen")
                              (Loaded.Measure_includes d "input");
                 Normal (b && PrimFloat.eqb (Loaded.year d) year0)) rows)
    as (out & Hout & _); [|by exists out].
  eapply Forall_impl; [exact HM|].
  intros r [b ->]%(Measure_includes_completes r "input").
  rewrite and_then_Normal. simpl. eauto.
Qed.

Lemma Loaded_livestockRows_completes rows year0 :
  Forall (λ r, is_Some (Loaded.Measure r)) rows ->
  exists out, Loaded.livestockRows rows year0 = Normal out.
Proof.
  intros HM.
  destruct (Array_filter_completes
              (fun d =>
                 b ← Loaded.Measure_includes d "livestock";
                 Normal (b && PrimFloat.eqb (Loaded.year d) year0)) rows)
    as (out & Hout & _); [|by exists out].
  eapply Forall_impl; [exact HM|].
  intros r [b ->]%(Measure_includes_completes r "livestock").
  simpl. eauto.
Qed.

(** [filterProtectionCoefficient] has no step that can throw: it completes
    on every loaded row set, and each tuple carries the fields of a row
    unchanged. *)
Lemma Loaded_filterProtectionCoefficient_completes rows :
  exists out,
    Loaded.filterProtectionCoefficient rows = Normal out /\
    Forall (λ t, exists r, r ∈ rows /\
              t = Loaded.FilteredTuple.mk (Loaded.country_code r)
                    (Loaded.year r) (Loaded.value r)) out.
Proof.
  eexists. split; [reflexivity|]. apply Forall_forall. intros t.
  rewrite list_elem_of_In, in_map_iff.
  intros (r & <- & [Hr _]%List.filter_In). exists r.
  by rewrite list_elem_of_In.
Qed.

(** Without a [Measure], a row that reaches the substring test makes the
    call throw. *)
Lemma filter_ts_throws_without_Measure :
  Loaded.getNutrientSurplusByCountry [row_without_Measure] Nitrogen 2000
    = Throw TypeError /\
  Loaded.getScatterData [row_without_Measure] 2000 = Throw TypeError /\
  Loaded.groupByMeasure [row_without_Measure] "Nitrogen" 2000
    = Throw TypeError.
Proof. repeat split. Qed.


(** * Further properties of the code *)

(** ** The filters of [filter.ts] *)

Lemma List_filter_narrow {A} (f p : A -> bool) (l : list A) :
  (forall x, f x = true -> p x = true) ->
  List.filter f (List.filter p l) = List.filter f l.
Proof.
  intros Hfp. induction l as [|x l IH]; simpl; [done|].
  destruct (p x) eqn:Hp; simpl; rewrite IH; [done|].
  destruct (f x) eqn:Hf; [|done]. apply Hfp in Hf. congruence.
Qed.

Lemma List_filter_sublist {A} (f : A -> bool) (l : list A) :
  sublist (List.filter f l) l.
Proof.
  induction l as [|x l IH]; simpl; [constructor|].
  destruct (f x); by constructor.
Qed.

(** X1. The three row filters work record by record: on a record set made
    of two parts the result is the result on the first part followed by
    the result on the second. *)
Theorem filters_append
    (a b : list EnvData) (nutrient : NutrientName) (nutrient' : string)
    (year0 : number) :
  filterProtectionCoefficient (a ++ b) =
    filterProtectionCoefficient a ++ filterProtectionCoefficient b /\
  getNutrientSurplusByCountry (a ++ b) nutrient year0 =
    getNutrientSurplusByCountry a nutrient year0 ++
    getNutrientSurplusByCountry b nutrient year0 /\
  groupByMeasure (a ++ b) nutrient' year0 =
    groupByMeasure a nutrient' year0 ++ groupByMeasure b nutrient' year0.
Proof.
  unfold filterProtectionCoefficient, getNutrientSurplusByCountry,
    groupByMeasure.
  by rewrite !List.filter_app, List.map_app.
Qed.

(** X2. [getNutrientSurplusByCountry] returns a sub-sequence of the record
    set, and a record is in it exactly when it is in the record set, its
    year is [===] the year asked for, its nutrient type is the one asked
    for and its lower-cased measure label contains "surplus". *)
Theorem getNutrientSurplusByCountry_selects
    (data : list EnvData) (nutrient : NutrientName) (year0 : number) :
  sublist (getNutrientSurplusByCountry data nutrient year0) data /\
  (forall d,
     d ∈ getNutrientSurplusByCountry data nutrient year0 <->
     d ∈ data /\
     PrimFloat.eqb (year d) year0 = true /\
     nutrient_type d = nutrient_string nutrient /\
     exists pre post, toLowerCase (Measure d) = pre +:+ "surplus" +:+ post).
Proof.
  split; [apply List_filter_sublist|]. intros d.
  unfold getNutrientSurplusByCountry.
  rewrite list_elem_of_In, List.filter_In, <- list_elem_of_In.
  rewrite !andb_true_iff, String.eqb_eq, includes_occurs. tauto.
Qed.

(** X3. Only the records of the year asked for matter to
    [getScatterData]: the records of the other years can be removed, or
    added, without changing the result. *)
Theorem getScatterData_year_only (data : list EnvData) (year0 : number) :
  getScatterData data year0 =
  getScatterData (List.filter (fun d => PrimFloat.eqb (year d) year0) data)
    year0.
Proof.
  unfold getScatterData, nitrogenInput, livestockRows.
  rewrite !List_filter_narrow; [done| |].
  - by intros d [_ Hy]%andb_true_iff.
  - by intros d [_ Hy]%andb_true_iff.
Qed.

(** X4. [getScatterData] is empty exactly when the record set has no
    nitrogen-input row for the year, whatever livestock rows it has; and
    it never has more pairs than there are nitrogen-input rows. *)
Theorem getScatterData_empty_iff (data : list EnvData) (year0 : number) :
  (getScatterData data year0 = [] <-> nitrogenInput data year0 = []) /\
  length (getScatterData data year0) <= length (nitrogenInput data year0).
Proof.
  rewrite getScatterData_joined. split.
  - destruct (nitrogenInput data year0) as [|d first]; simpl; [done|].
    split; intros; done.
  - rewrite length_fmap.
    etrans; [apply first_occurrences_length|]. by rewrite length_fmap.
Qed.

(** A number is never [===] to [NaN]. *)
Lemma eqb_nan_r (x : number) : PrimFloat.eqb x nan = false.
Proof.
  rewrite FloatAxioms.eqb_spec. change (Prim2SF nan) with S754_nan.
  unfold SFeqb. by destruct (Prim2SF x).
Qed.

(** X5. Asked for the year [NaN], the three functions that test the year
    return the empty sequence for every record set, also one whose records
    have [NaN] as their year. *)
Theorem year_NaN_selects_nothing
    (data : list EnvData) (nutrient : NutrientName) (nutrient' : string) :
  getNutrientSurplusByCountry data nutrient nan = [] /\
  getScatterData data nan = [] /\
  groupByMeasure data nutrient' nan = [].
Proof.
  split; [|split].
  - apply List_filter_false. intros d. by rewrite eqb_nan_r.
  - unfold getScatterData, nitrogenInput, livestockRows.
    rewrite !List_filter_false; [done| |];
      intros d; by rewrite eqb_nan_r, andb_false_r.
  - apply List_filter_false. intros d. by rewrite eqb_nan_r, andb_false_r.
Qed.

(** ** When the functions throw *)

Lemma Array_filter_throws {A} (callback : A -> Completion bool) (l : list A) :
  Array_filter callback l = Throw TypeError <->
  exists x, x ∈ l /\ callback x = Throw TypeError.
Proof.
  induction l as [|x l IH]; simpl.
  - split; [done|]. by intros (x & Hx%elem_of_nil & _).
  - destruct (callback x) as [b|[]] eqn:Hcb; simpl.
    + destruct (Array_filter callback l) as [rest|[]]; simpl.
      * split; [done|]. intros (y & [->|Hy]%elem_of_cons & Hthrow).
        -- congruence.
        -- assert (Hex : exists x0, x0 ∈ l /\ callback x0 = Throw TypeError)
             by eauto.
           apply IH in Hex. done.
      * split; [|done]. intros _.
        destruct (proj1 IH eq_refl) as (y & Hy & Hthrow).
        exists y. split; [by right|done].
    + split; [|done]. intros _. exists x. split; [by left|done].
Qed.

Lemma Measure_includes_throws (r : Loaded.EnvDataRecord) word :
  Loaded.Measure_includes r word = Throw TypeError <-> Loaded.Measure r = None.
Proof.
  unfold Loaded.Measure_includes. by destruct (Loaded.Measure r).
Qed.

(** X6. On loaded rows [getScatterData] throws a [TypeError] exactly when
    some row has no [Measure], whatever the year and the other fields of
    that row are. *)
Theorem Loaded_getScatterData_throws_iff
    (rows : list Loaded.EnvDataRecord) (year0 : number) :
  Loaded.getScatterData rows year0 = Throw TypeError <->
  exists r, r ∈ rows /\ Loaded.Measure r = None.
Proof.
  assert (Hsecond : Loaded.livestockRows rows year0 = Throw TypeError <->
                    exists r, r ∈ rows /\ Loaded.Measure r = None).
  { unfold Loaded.livestockRows. rewrite Array_filter_throws.
    split; intros (r & Hr & Hthrow); exists r; split; try done.
    - destruct (Loaded.Measure_includes r "livestock") as [b|[]] eqn:HM;
        [done|]. by apply Measure_includes_throws in HM.
    - apply (Measure_includes_throws r "livestock") in Hthrow.
      by rewrite Hthrow. }
  unfold Loaded.getScatterData.
  destruct (Loaded.nitrogenInput rows year0) as [first|[]] eqn:Hfirst; simpl.
  - destruct (Loaded.livestockRows rows year0) as [second|[]]; simpl.
    + rewrite <- Hsecond. done.
    + rewrite <- Hsecond. done.
  - split; [|done]. intros _.
    unfold Loaded.nitrogenInput in Hfirst.
    apply Array_filter_throws in Hfirst as (r & Hr & Hthrow).
    exists r. split; [done|].
    destruct (Loaded.strict_eq (Loaded.nutrient_type r) "Nitrogen");
      simpl in Hthrow; [|done].
    destruct (Loaded.Measure_includes r "input") as [b|[]] eqn:HM; [done|].
    by apply Measure_includes_throws in HM.
Qed.

(** X7. On loaded rows [getNutrientSurplusByCountry] and [groupByMeasure]
    throw a [TypeError] exactly when a row of the year and of the nutrient
    type asked for has no [Measure]; a row without a [Measure] that fails
    the year or the nutrient test does no harm. *)
Theorem Loaded_surplus_filters_throw_iff
    (rows : list Loaded.EnvDataRecord)
    (nutrient : NutrientName) (nutrient' : string) (year0 : number) :
  (Loaded.getNutrientSurplusByCountry rows nutrient year0 = Throw TypeError <->
   exists r, r ∈ rows /\
     PrimFloat.eqb (Loaded.year r) year0 = true /\
     Loaded.nutrient_type r = Some (nutrient_string nutrient) /\
     Loaded.Measure r = None) /\
  (Loaded.groupByMeasure rows nutrient' year0 = Throw TypeError <->
   exists r, r ∈ rows /\
     PrimFloat.eqb (Loaded.year r) year0 = true /\
     Loaded.nutrient_type r = Some nutrient' /\
     Loaded.Measure r = None).
Proof.
  assert (Hs : forall (x : option string) s,
             Loaded.strict_eq x s = true <-> x = Some s).
  { intros [s'|] s; simpl; [|done]. rewrite String.eqb_eq. naive_solver. }
  unfold Loaded.getNutrientSurplusByCountry, Loaded.groupByMeasure.
  rewrite !Array_filter_throws.
  split; (split; intros (r & Hr & H); exists r; (split; [done|])).
  - destruct (PrimFloat.eqb _ _ && _) eqn:Hab; simpl in H; [|done].
    apply andb_true_iff in Hab as [Ha Hb%Hs].
    by apply Measure_includes_throws in H.
  - destruct H as (Ha & Hb%Hs & HM). rewrite Ha, Hb. simpl.
    by apply Measure_includes_throws.
  - destruct (_ && PrimFloat.eqb _ _) eqn:Hab; simpl in H; [|done].
    apply andb_true_iff in Hab as [Hb%Hs Ha].
    by apply Measure_includes_throws in H.
  - destruct H as (Ha & Hb%Hs & HM). rewrite Ha, Hb. simpl.
    by apply Measure_includes_throws.
Qed.

(** X8. [filterProtectionCoefficient] passes over the loaded rows that
    have no [Measure]: they give no tuple, raise nothing, and the result is
    the one for the remaining rows. *)
Theorem Loaded_filterProtectionCoefficient_skips
    (rows : list Loaded.EnvDataRecord) :
  Loaded.filterProtectionCoefficient rows =
  Loaded.filterProtectionCoefficient (List.filter has_Measure rows).
Proof.
  unfold Loaded.filterProtectionCoefficient. do 2 f_equal.
  symmetry. apply List_filter_narrow.
  intros r. unfold has_Measure, Loaded.strict_eq.
  by destruct (Loaded.Measure r).
Qed.

(** X9. On rows that have the type [EnvData], evaluating the four
    functions with exceptions completes normally and gives the result of
    the typed reading, row for row. *)
Theorem Loaded_agrees_on_EnvData
    (data : list EnvData) (nutrient : NutrientName) (nutrient' : string)
    (year0 : number) :
  Loaded.filterProtectionCoefficient (as_loaded <$> data) =
    Normal (tuple_as_loaded <$> filterProtectionCoefficient data) /\
  Loaded.getNutrientSurplusByCountry (as_loaded <$> data) nutrient year0 =
    Normal (as_loaded <$> getNutrientSurplusByCountry data nutrient year0) /\
  Loaded.getScatterData (as_loaded <$> data) year0 =
    Normal (point_as_loaded <$> getScatterData data year0) /\
  Loaded.groupByMeasure (as_loaded <$> data) nutrient' year0 =
    Normal (as_loaded <$> groupByMeasure data nutrient' year0).
Proof.
  split; [apply Loaded_filterProtectionCoefficient_typed|].
  split; [apply Loaded_getNutrientSurplusByCountry_typed|].
  split; [apply Loaded_getScatterData_typed|].
  apply Loaded_groupByMeasure_typed.
Qed.

(** ** [TimeSeries]: the rows of [grouped] *)

Lemma Set_add_fold `{EqDecision A} (l s : list A) :
  fold_left Set_add l s =
  s ++ filter (λ x, x ∉ s) (first_occurrences l).
Proof.
  revert s. induction l as [|x l IH]; intros s.
  - simpl. by rewrite app_nil_r.
  - cbn [fold_left first_occurrences]. rewrite IH. unfold Set_add.
    case_decide as Hin.
    + rewrite filter_cons_False by (by intros Hn; apply Hn).
      by rewrite filter_known_present.
    + rewrite filter_cons_True by done.
      by rewrite filter_known_fresh, <- app_assoc.
Qed.

Lemma Set_new_first_occurrences `{EqDecision A} (l : list A) :
  Set_new l = first_occurrences l.
Proof.
  unfold Set_new. rewrite Set_add_fold. simpl.
  apply filter_all. intros x Hx. by apply elem_of_nil in Hx.
Qed.

Lemma group_row_keys grouped d :
  Map_keys (group_row grouped d) =
  Set_add (Map_keys grouped) (ToPropertyKey (year d)).
Proof.
  rewrite group_row_eq. unfold Set_add. case_decide.
  - by apply Map_keys_set_present.
  - by apply Map_keys_set_fresh.
Qed.

Lemma group_rows_keys rows grouped :
  Map_keys (fold_left group_row rows grouped) =
  fold_left Set_add ((λ d, ToPropertyKey (year d)) <$> rows) (Map_keys grouped).
Proof.
  revert grouped. induction rows as [|d rows IH]; intros grouped; [done|].
  rewrite fmap_cons. cbn [fold_left]. by rewrite IH, group_row_keys.
Qed.

(** The row of key [k] after the loop: the assignments of the rows of that
    year, in order, to the row that was there or to a fresh one. *)
Lemma group_rows_get rows grouped k :
  Map_get k (fold_left group_row rows grouped) =
  match rows_of_year k rows with
  | [] => Map_get k grouped
  | d0 :: _ =>
      Some (fold_left assign_field (rows_of_year k rows)
              (default {[ "year" := year d0 ]} (Map_get k grouped)))
  end.
Proof.
  unfold rows_of_year.
  revert grouped. induction rows as [|d rows IH]; intros grouped; [done|].
  cbn [fold_left]. rewrite IH, filter_cons, group_row_eq.
  destruct (decide (ToPropertyKey (year d) = k)) as [<-|Hne].
  - rewrite Map_get_set_eq. cbn [fold_left default].
    by destruct (filter _ rows).
  - by rewrite Map_get_set_ne.
Qed.

Lemma assign_fields_lookup ds (r0 : gmap string number) c :
  fold_left assign_field ds r0 !! c =
  if decide (c = "__proto__") then r0 !! c
  else match last_value (rows_of c ds) with
       | Some v => Some v
       | None => r0 !! c
       end.
Proof.
  unfold last_value, rows_of.
  destruct (decide (c = "__proto__")) as [->|Hproto].
  - revert r0. induction ds as [|d ds IH]; intros r0; [done|].
    cbn [fold_left]. rewrite IH. unfold assign_field.
    destruct (decide (country_code d = "__proto__")) as [->|Hne].
    + by rewrite Object_set_proto.
    + by rewrite Object_set_lookup_ne.
  - revert r0. induction ds as [|d ds IH]; intros r0; [done|].
    cbn [fold_left]. rewrite IH, filter_cons. unfold assign_field.
    destruct (decide (country_code d = c)) as [<-|Hne].
    + rewrite fmap_cons, last_cons, Object_set_lookup_eq by done.
      by destruct (last _).
    + by rewrite Object_set_lookup_ne.
Qed.

Lemma TimeSeries_filtered_selected_country d data selectedCountries :
  d ∈ TimeSeries_filtered data selectedCountries ->
  country_code d ∈ selectedCountries.
Proof.
  unfold TimeSeries_filtered. rewrite list_elem_of_In, List.filter_In.
  intros [_ [_ Hsel]%andb_true_iff]. by apply Array_includes_elem_of.
Qed.

Lemma TimeSeries_grouped_row data selectedCountries k r :
  Map_get k (TimeSeries_grouped data selectedCountries) = Some r ->
  exists d0 rest,
    rows_of_year k (TimeSeries_filtered data selectedCountries) = d0 :: rest /\
    r = fold_left assign_field (d0 :: rest) {[ "year" := year d0 ]}.
Proof.
  unfold TimeSeries_grouped. rewrite group_rows_get.
  destruct (rows_of_year k _) as [|d0 rest]; simpl; [done|].
  intros [= <-]. eauto.
Qed.

Lemma rows_of_year_elem_of d k rows :
  d ∈ rows_of_year k rows <-> ToPropertyKey (year d) = k /\ d ∈ rows.
Proof.
  unfold rows_of_year.
  apply (list_elem_of_filter (λ d, ToPropertyKey (year d) = k)).
Qed.

Lemma rows_of_none c rows :
  (forall d, d ∈ rows -> country_code d <> c) -> rows_of c rows = [].
Proof. intros Hc. unfold rows_of. by apply filter_none. Qed.

(** X10. [grouped] has one row for each distinct year among the selected
    rows of the charted measure, created in the order in which the years
    are first met. *)
Theorem TimeSeries_grouped_years
    (data : list EnvData) (selectedCountries : list string) :
  Map_keys (TimeSeries_grouped data selectedCountries) =
  first_occurrences
    ((λ d, ToPropertyKey (year d))
       <$> TimeSeries_filtered data selectedCountries).
Proof.
  unfold TimeSeries_grouped. rewrite group_rows_keys.
  apply Set_new_first_occurrences.
Qed.

(** X11. In the row of a year, the field of a country code other than
    "year" and "__proto__" is the value of the last selected row of that
    year and country, and the row has no such field when there is no such
    row; a row never has a field "__proto__", whatever rows were
    selected. *)
Theorem TimeSeries_grouped_field
    (data : list EnvData) (selectedCountries : list string)
    (k : spec_float) (r : gmap string number) (c : string) :
  Map_get k (TimeSeries_grouped data selectedCountries) = Some r ->
  c <> "year" ->
  r !! c =
  if decide (c = "__proto__") then None
  else last_value
         (rows_of c
            (rows_of_year k (TimeSeries_filtered data selectedCountries))).
Proof.
  intros (d0 & rest & Hrows & ->)%TimeSeries_grouped_row Hc.
  rewrite assign_fields_lookup, Hrows.
  case_decide; [by rewrite lookup_singleton_ne|].
  destruct (last_value _); [done|]. by rewrite lookup_singleton_ne.
Qed.

Lemma TimeSeries_grouped_field_witness :
  exists r : gmap string number,
    Map_get (ToPropertyKey 2001)
      (TimeSeries_grouped series_rows2 ["ARG"; "BRA"; "CHL"]) = Some r /\
    r !! "BRA" = Some 1.5%float /\ r !! "CHL" = None.
Proof.
  destruct (Map_get (ToPropertyKey 2001)
              (TimeSeries_grouped series_rows2 ["ARG"; "BRA"; "CHL"]))
    as [r|] eqn:Hr; [|vm_compute in Hr; discriminate].
  exists r. split; [reflexivity|]. split.
  - rewrite (TimeSeries_grouped_field _ _ _ _ "BRA" Hr); [|done].
    vm_compute. reflexivity.
  - rewrite (TimeSeries_grouped_field _ _ _ _ "CHL" Hr); [|done].
    vm_compute. reflexivity.
Defined.

(** X12. A row of [grouped] never has a field for a country that is not
    selected. *)
Theorem TimeSeries_grouped_only_selected
    (data : list EnvData) (selectedCountries : list string)
    (k : spec_float) (r : gmap string number) (c : string) :
  Map_get k (TimeSeries_grouped data selectedCountries) = Some r ->
  c ∉ selectedCountries ->
  c <> "year" ->
  r !! c = None.
Proof.
  intros (d0 & rest & Hrows & ->)%TimeSeries_grouped_row Hsel Hc.
  rewrite assign_fields_lookup, <- Hrows.
  case_decide; [by rewrite lookup_singleton_ne|].
  rewrite rows_of_none.
  - simpl. by rewrite lookup_singleton_ne.
  - intros d [_ Hd]%rows_of_year_elem_of <-.
    by apply TimeSeries_filtered_selected_country in Hd.
Qed.

Lemma TimeSeries_grouped_only_selected_witness :
  exists r : gmap string number,
    Map_get (ToPropertyKey 2001)
      (TimeSeries_grouped series_rows2 ["ARG"]) = Some r /\
    r !! "BRA" = None.
Proof.
  destruct (Map_get (ToPropertyKey 2001)
              (TimeSeries_grouped series_rows2 ["ARG"]))
    as [r|] eqn:Hr; [|vm_compute in Hr; discriminate].
  exists r. split; [reflexivity|].
  apply (TimeSeries_grouped_only_selected _ _ _ _ "BRA" Hr).
  - by intros [Heq|Hnil%elem_of_nil]%elem_of_cons.
  - done.
Defined.

(** X13. When no selected country code is spelled "year", the field
    [year] of every row of [grouped] is a year that has the key of the
    row. *)
Theorem TimeSeries_grouped_year_field
    (data : list EnvData) (selectedCountries : list string)
    (k : spec_float) (r : gmap string number) :
  "year" ∉ selectedCountries ->
  Map_get k (TimeSeries_grouped data selectedCountries) = Some r ->
  exists y, r !! "year" = Some y /\ ToPropertyKey y = k.
Proof.
  intros Hsel (d0 & rest & Hrows & ->)%TimeSeries_grouped_row.
  exists (year d0). split.
  - rewrite assign_fields_lookup, <- Hrows, decide_False by done.
    rewrite rows_of_none.
    + simpl. by rewrite lookup_singleton_eq.
    + intros d [_ Hd]%rows_of_year_elem_of Heq.
      apply TimeSeries_filtered_selected_country in Hd. by rewrite Heq in Hd.
  - assert (Hd0 : d0 ∈ rows_of_year k
                         (TimeSeries_filtered data selectedCountries))
      by (rewrite Hrows; left).
    by apply rows_of_year_elem_of in Hd0 as [Hk _].
Qed.

Lemma TimeSeries_grouped_year_field_witness :
  exists r : gmap string number,
    Map_get (ToPropertyKey 2000)
      (TimeSeries_grouped series_rows2 ["ARG"; "CHL"]) = Some r /\
    exists y, r !! "year" = Some y /\ ToPropertyKey y = ToPropertyKey 2000.
Proof.
  destruct (Map_get (ToPropertyKey 2000)
              (TimeSeries_grouped series_rows2 ["ARG"; "CHL"]))
    as [r|] eqn:Hr; [|vm_compute in Hr; discriminate].
  exists r. split; [reflexivity|].
  apply (TimeSeries_grouped_year_field series_rows2 ["ARG"; "CHL"]); [|done].
  intros [Heq|[Heq|Hnil%elem_of_nil]%elem_of_cons]%elem_of_cons; done.
Defined.

(** X14. A selected country code spelled "year" shares the field [year] of
    the row: after a row of that country, the field [year] holds the value
    of the last such row of the year, not the year. *)
Theorem TimeSeries_grouped_year_overwritten
    (data : list EnvData) (selectedCountries : list string)
    (k : spec_float) (r : gmap string number) (v : number) :
  Map_get k (TimeSeries_grouped data selectedCountries) = Some r ->
  last_value
    (rows_of "year"
       (rows_of_year k (TimeSeries_filtered data selectedCountries))) = Some v ->
  r !! "year" = Some v.
Proof.
  intros (d0 & rest & Hrows & ->)%TimeSeries_grouped_row Hv.
  by rewrite assign_fields_lookup, <- Hrows, decide_False, Hv.
Qed.

Lemma TimeSeries_grouped_year_overwritten_witness :
  exists r : gmap string number,
    Map_get (ToPropertyKey 2001)
      (TimeSeries_grouped
         [ row "year" "Producer Nominal Protection Coefficient" "" 2001 7 ]
         ["year"]) = Some r /\
    r !! "year" = Some 7%float.
Proof.
  destruct (Map_get (ToPropertyKey 2001)
              (TimeSeries_grouped
                 [ row "year" "Producer Nominal Protection Coefficient" ""
                     2001 7 ] ["year"]))
    as [r|] eqn:Hr; [|vm_compute in Hr; discriminate].
  exists r. split; [reflexivity|].
  apply (TimeSeries_grouped_year_overwritten _ _ _ _ 7%float Hr).
  vm_compute. reflexivity.
Defined.

(** ** [TimeSeries]: [chartData] *)

Lemma insert_index_Permutation {V} z (v : V) l :
  insert_index z v l ≡ₚ (z, v) :: l.
Proof.
  induction l as [|[z' v'] l IH]; simpl; [done|].
  destruct (z <? z')%Z; [done|]. rewrite IH. apply Permutation_swap.
Qed.

Lemma Object_values_Permutation {V} (o : list (spec_float * V)) :
  Object_values o ≡ₚ o.*2.
Proof.
  unfold Object_values. induction o as [|[k v] o IH]; [done|].
  cbn [indexed_entries named_entries fold_right List.filter fst snd].
  fold (indexed_entries o). fold (named_entries o).
  rewrite fmap_cons. cbn [snd].
  destruct (array_index k) as [z|].
  - change (List.map snd (insert_index z v (indexed_entries o)))
      with ((insert_index z v (indexed_entries o)).*2).
    rewrite insert_index_Permutation, fmap_cons. cbn [snd app].
    by rewrite IH.
  - cbn [List.map snd]. rewrite <- Permutation_middle. by rewrite IH.
Qed.

Lemma sort_insert_Permutation {A} (comparefn : A -> A -> number) x l :
  sort_insert comparefn x l ≡ₚ x :: l.
Proof.
  induction l as [|y l IH]; simpl; [done|].
  destruct (PrimFloat.ltb 0 (comparefn y x)); [done|].
  rewrite IH. apply Permutation_swap.
Qed.

Lemma Array_sort_Permutation {A} (comparefn : A -> A -> number) l :
  Array_sort comparefn l ≡ₚ l.
Proof.
  unfold Array_sort.
  assert (H : forall sorted,
             fold_left (fun sorted x => sort_insert comparefn x sorted) l sorted
             ≡ₚ sorted ++ l).
  { induction l as [|x l IH]; intros sorted; simpl.
    - by rewrite app_nil_r.
    - rewrite IH, sort_insert_Permutation. simpl. apply Permutation_middle. }
  by rewrite H.
Qed.

(** X15. [chartData] holds the rows of [grouped], each once: ordering the
    rows neither drops nor repeats a row, so the chart gets one row for
    each distinct year among the selected rows of the charted measure. *)
Theorem TimeSeries_chartData_rows
    (data : list EnvData) (selectedCountries : list string) :
  TimeSeries_chartData data selectedCountries
    ≡ₚ (TimeSeries_grouped data selectedCountries).*2 /\
  length (TimeSeries_chartData data selectedCountries) =
  length (first_occurrences
            ((λ d, ToPropertyKey (year d))
               <$> TimeSeries_filtered data selectedCountries)).
Proof.
  assert (Hperm : TimeSeries_chartData data selectedCountries
                    ≡ₚ (TimeSeries_grouped data selectedCountries).*2).
  { unfold TimeSeries_chartData.
    by rewrite Array_sort_Permutation, Object_values_Permutation. }
  split; [done|].
  rewrite Hperm, length_fmap.
  unfold TimeSeries_grouped.
  rewrite <- (length_fmap fst), <- Set_new_first_occurrences.
  change (fst <$> ?m) with (Map_keys m). by rewrite group_rows_keys.
Qed.

(** X16. When no record of the charted measure belongs to a selected
    country, among others when no country is selected, [grouped] and
    [chartData] are empty. *)
Theorem TimeSeries_nothing_selected
    (data : list EnvData) (selectedCountries : list string) :
  (forall d, d ∈ data ->
     Measure d = "Producer Nominal Protection Coefficient" ->
     country_code d ∉ selectedCountries) ->
  TimeSeries_grouped data selectedCountries = [] /\
  TimeSeries_chartData data selectedCountries = [].
Proof.
  intros Hnone.
  assert (Hf : TimeSeries_filtered data selectedCountries = []).
  { destruct (TimeSeries_filtered data selectedCountries) as [|d l] eqn:Hl;
      [done|].
    assert (Hd : d ∈ TimeSeries_filtered data selectedCountries)
      by (rewrite Hl; left).
    pose proof (TimeSeries_filtered_selected_country _ _ _ Hd) as Hsel.
    apply TimeSeries_filtered_elem_of in Hd as [Hd HM].
    by destruct (Hnone d Hd HM). }
  unfold TimeSeries_chartData, TimeSeries_grouped. by rewrite Hf.
Qed.

Lemma TimeSeries_nothing_selected_witness :
  TimeSeries_grouped series_rows2 [] = [] /\
  TimeSeries_chartData series_rows2 [] = [].
Proof.
  apply TimeSeries_nothing_selected.
  intros d _ _ Hin. by apply elem_of_nil in Hin.
Defined.

(** ** [Dashboard]: the country options *)





(** A row without a country code and a row of the country code
    "undefined" give two options with the same value. *)
Example countryOptions_collision :
  countryOptions
    [ row_without_country;
      Loaded.mk (Some "Nitrogen input") (Some "Nitrogen") (Some "undefined")
        2000 1 ]
  = [ CountryOption.mk "undefined" "undefined";
      CountryOption.mk "undefined" "undefined" ].
Proof. reflexivity. Qed.

(** ** [CountrySelector] *)

Lemma Select_value_sublist {A} (f : A -> string) (l chosen : list A) :
  NoDup (f <$> l) ->
  sublist chosen l ->
  List.filter (fun x => Array_includes (f <$> chosen) (f x)) l = chosen.
Proof.
  intros Hnd Hsub. induction Hsub as [|x chosen l Hsub IH|x chosen l Hsub IH].
  - done.
  - rewrite fmap_cons in Hnd. apply NoDup_cons in Hnd as [Hx Hnd].
    rewrite fmap_cons. cbn [List.filter Array_includes existsb].
    rewrite String.eqb_refl. cbn [orb]. f_equal.
    etrans; [|apply (IH Hnd)]. apply List.filter_ext_in.
    intros y Hy%list_elem_of_In.
    destruct (String.eqb_spec (f x) (f y)) as [Heq|Hne]; [|done].
    destruct Hx. rewrite Heq. by apply list_elem_of_fmap_2.
  - rewrite fmap_cons in Hnd. apply NoDup_cons in Hnd as [Hx Hnd].
    cbn [List.filter].
    destruct (Array_includes (f <$> chosen) (f x)) eqn:Hin; [|by apply IH].
    apply Array_includes_elem_of in Hin. destruct Hx.
    eapply elem_of_sublist; [exact Hin|]. by apply fmap_sublist.
Qed.

(** X18. Picking options and showing them again is a round trip: when the
    values of the options are distinct and the user's choice is a
    sub-sequence of the options, the options shown as selected, after
    [handleChange] has handed the chosen values to [onChange], are the
    chosen options. *)
Theorem CountrySelector_round_trip
    (options chosen : list CountryOption.t) :
  NoDup (CountryOption.value <$> options) ->
  sublist chosen options ->
  Select_value options (handleChange (Some chosen)) = chosen.
Proof.
  intros Hnd Hsub. unfold Select_value, handleChange.
  by apply (Select_value_sublist CountryOption.value).
Qed.

Lemma CountrySelector_round_trip_witness :
  Select_value
    [ CountryOption.mk "ARG" "ARG"; CountryOption.mk "BRA" "BRA";
      CountryOption.mk "CHL" "CHL" ]
    (handleChange (Some [ CountryOption.mk "ARG" "ARG";
                          CountryOption.mk "CHL" "CHL" ]))
  = [ CountryOption.mk "ARG" "ARG"; CountryOption.mk "CHL" "CHL" ].
Proof.
  apply CountrySelector_round_trip.
  - apply (bool_decide_unpack _). vm_compute. exact I.
  - apply sublist_skip, sublist_cons, sublist_skip, sublist_nil.
Defined.

(** X19. The options shown as selected are the options whose value is a
    selected code, in the order of the options: a selected code that no
    option has is shown nowhere, and handing the shown options back
    through [handleChange] loses it. *)
Theorem CountrySelector_shows_known_codes
    (options : list CountryOption.t) (selected : list string) :
  handleChange (Some (Select_value options selected)) =
  filter (λ c, c ∈ selected) (CountryOption.value <$> options).
Proof.
  unfold handleChange, Select_value.
  induction options as [|opt options IH]; [done|].
  rewrite fmap_cons, filter_cons. cbn [List.filter].
  destruct (Array_includes selected (CountryOption.value opt)) eqn:Hin.
  - rewrite decide_True by (by apply Array_includes_elem_of).
    cbn [List.map]. by rewrite IH.
  - rewrite decide_False; [done|].
    intros Hsel%Array_includes_elem_of. congruence.
Qed.



(** With a missing code and the code "undefined" among the rows, picking
    one of the two options shows both as selected. *)
Example Dashboard_selection_collision :
  Select_value
    (countryOptions
       [ row_without_country;
         Loaded.mk (Some "Nitrogen input") (Some "Nitrogen")
           (Some "undefined") 2000 1 ])
    (handleChange (Some [ CountryOption.mk "undefined" "undefined" ]))
  = [ CountryOption.mk "undefined" "undefined";
      CountryOption.mk "undefined" "undefined" ].
Proof. reflexivity. Qed.

(** ** [TimeSeries] and [filterProtectionCoefficient] *)

(** X21. The rows that [TimeSeries] charts are the rows that
    [filterProtectionCoefficient] turns into tuples, restricted to the
    selected countries: the tuples of the charted rows are the tuples of
    the whole record set whose country is selected, in the same order. *)
Theorem TimeSeries_filtered_tuples
    (data : list EnvData) (selectedCountries : list string) :
  filterProtectionCoefficient (TimeSeries_filtered data selectedCountries) =
  List.filter
    (fun t => Array_includes selectedCountries (FilteredTuple.country t))
    (filterProtectionCoefficient data).
Proof.
  unfold filterProtectionCoefficient, TimeSeries_filtered.
  induction data as [|d data IH]; [done|]. cbn [List.filter].
  destruct (String.eqb (Measure d) _) eqn:HM; cbn [andb]; [|done].
  cbn [List.map List.filter FilteredTuple.country].
  destruct (Array_includes selectedCountries (country_code d)); [|done].
  cbn [List.filter]. rewrite HM. cbn [List.map]. by rewrite IH.
Qed.

(** ** [getScatterData] on rows without a country code *)

Lemma Loaded_seed_row_keys rows (m : list (option string * ScatterEntry)) :
  Map_keys (fold_left Loaded.seed_row rows m) =
  fold_left Set_add (Loaded.country_code <$> rows) (Map_keys m).
Proof.
  revert m. induction rows as [|r rows IH]; intros m; [done|].
  rewrite fmap_cons. cbn [fold_left]. rewrite IH. f_equal.
  unfold Loaded.seed_row, Set_add. case_decide.
  - by apply Map_keys_set_present.
  - by apply Map_keys_set_fresh.
Qed.

Lemma Loaded_add_livestock_keys rows (m : list (option string * ScatterEntry)) :
  Map_keys (fold_left Loaded.add_livestock rows m) = Map_keys m.
Proof.
  revert m. induction rows as [|r rows IH]; intros m; simpl; [done|].
  rewrite IH. unfold Loaded.add_livestock.
  destruct (Map_get (Loaded.country_code r) m) eqn:Hget; [|done].
  apply Map_keys_set_present, Map_get_is_Some. by rewrite Hget.
Qed.

(** X22. On loaded rows that all have a [Measure], [getScatterData]
    completes with one pair for each distinct country code of the
    nitrogen-input rows, in the order in which the codes are first met; the
    rows that have no country code count as one country, [undefined], and
    are pooled into a single pair. *)
Theorem Loaded_getScatterData_countries
    (rows : list Loaded.EnvDataRecord) (year0 : number) :
  Forall (λ r, is_Some (Loaded.Measure r)) rows ->
  exists first out,
    Loaded.nitrogenInput rows year0 = Normal first /\
    Loaded.getScatterData rows year0 = Normal out /\
    Loaded.ScatterPoint.country <$> out =
      first_occurrences (Loaded.country_code <$> first) /\
    NoDup (Loaded.ScatterPoint.country <$> out).
Proof.
  intros HM.
  destruct (Loaded_nitrogenInput_completes rows year0 HM) as [first Hfirst].
  destruct (Loaded_livestockRows_completes rows year0 HM) as [second Hsecond].
  unfold Loaded.getScatterData. rewrite Hfirst, Hsecond.
  cbn [mbind Completion_bind].
  eexists first, _. split; [done|]. split; [done|].
  set (map2 := fold_left Loaded.add_livestock second
                 (fold_left Loaded.seed_row first [])).
  assert (Hkeys : Loaded.ScatterPoint.country
                    <$> List.map
                          (fun '(country, values) =>
                             {| Loaded.ScatterPoint.country := country;
                                Loaded.ScatterPoint.nitrogen := nitrogen values;
                                Loaded.ScatterPoint.livestock :=
                                  livestock values |}) map2
                  = first_occurrences (Loaded.country_code <$> first)).
  { transitivity (Map_keys map2).
    - unfold Map_keys. generalize map2. intros m.
      induction m as [|[c e] m IH]; [done|].
      cbn [List.map fst]. rewrite fmap_cons. by f_equal.
    - unfold map2.
      rewrite Loaded_add_livestock_keys, Loaded_seed_row_keys.
      apply Set_new_first_occurrences. }
  split; [exact Hkeys|]. rewrite Hkeys. apply NoDup_first_occurrences.
Qed.

Lemma Loaded_getScatterData_countries_witness :
  Forall (λ r, is_Some (Loaded.Measure r))
    [row_without_country; row_without_country] /\
  exists first out,
    Loaded.nitrogenInput [row_without_country; row_without_country] 2000
      = Normal first /\
    Loaded.getScatterData [row_without_country; row_without_country] 2000
      = Normal out /\
    Loaded.ScatterPoint.country <$> out =
      first_occurrences (Loaded.country_code <$> first) /\
    NoDup (Loaded.ScatterPoint.country <$> out).
Proof.
  assert (HM : Forall (λ r, is_Some (Loaded.Measure r))
                 [row_without_country; row_without_country]).
  { repeat constructor; by eexists. }
  split; [exact HM|].
  exact (Loaded_getScatterData_countries
           [row_without_country; row_without_country] 2000 HM).
Defined.

(** Two rows without a country code give one pair. *)
Example Loaded_getScatterData_pooled :
  Loaded.getScatterData [row_without_country; row_without_country] 2000 =
  Normal [ Loaded.ScatterPoint.mk None nan 0 ].
Proof. reflexivity. Qed.

(** ** The four functions on loaded rows that have a [Measure] *)

Lemma List_filter_Prop {A} (f : A -> bool) (P : A -> Prop)
    `{!∀ x, Decision (P x)} (l : list A) :
  (forall x, f x = true <-> P x) -> List.filter f l = filter P l.
Proof.
  intros HfP. induction l as [|x l IH]; [done|].
  cbn [List.filter]. rewrite filter_cons, IH.
  destruct (f x) eqn:Hf.
  - by rewrite decide_True by (by apply HfP).
  - rewrite decide_False; [done|]. intros HP%HfP. congruence.
Qed.

(** When the callback completes on every row with the value of [g], the
    filter completes with the rows that [g] keeps. *)
Lemma Array_filter_Normal_in {A} (callback : A -> Completion bool)
    (g : A -> bool) (l : list A) :
  (forall x, x ∈ l -> callback x = Normal (g x)) ->
  Array_filter callback l = Normal (List.filter g l).
Proof.
  induction l as [|x l IH]; intros Hcb; [done|].
  cbn [Array_filter List.filter].
  rewrite (Hcb x) by left. rewrite IH by (intros y Hy; apply Hcb; by right).
  simpl. by destruct (g x).
Qed.

Lemma Measure_includes_has_word (r : Loaded.EnvDataRecord) word :
  is_Some (Loaded.Measure r) ->
  Loaded.Measure_includes r word = Normal (Loaded_has_word word r).
Proof.
  intros [s Hs]. unfold Loaded.Measure_includes, Loaded_has_word.
  by rewrite Hs.
Qed.

Lemma strict_eq_Some (x : option string) s :
  Loaded.strict_eq x s = true <-> x = Some s.
Proof.
  destruct x as [s'|]; simpl; [|done]. rewrite String.eqb_eq.
  split; [by intros -> | by intros [= ->]].
Qed.

Lemma Loaded_surplus_filter_rows (rows : list Loaded.EnvDataRecord)
    nutrient year0 (first_test : Loaded.EnvDataRecord -> bool) :
  Forall (λ r, is_Some (Loaded.Measure r)) rows ->
  (forall r, first_test r = true <->
     PrimFloat.eqb (Loaded.year r) year0 = true /\
     Loaded.nutrient_type r = Some nutrient) ->
  Array_filter
    (fun d => and_then (first_test d) (Loaded.Measure_includes d "surplus"))
    rows
  = Normal (Loaded_surplus_rows nutrient year0 rows).
Proof.
  intros HM Htest. rewrite Forall_forall in HM.
  rewrite (Array_filter_Normal_in _
             (fun r => first_test r && Loaded_has_word "surplus" r)).
  - f_equal. apply List_filter_Prop. intros r.
    rewrite andb_true_iff, Htest. tauto.
  - intros r Hr. rewrite Measure_includes_has_word by (by apply HM).
    apply and_then_Normal.
Qed.

Lemma Loaded_nitrogenInput_rows rows year0 :
  Forall (λ r, is_Some (Loaded.Measure r)) rows ->
  Loaded.nitrogenInput rows year0 = Normal (Loaded_nitrogen_rows year0 rows).
Proof.
  intros HM. rewrite Forall_forall in HM. unfold Loaded.nitrogenInput.
  rewrite (Array_filter_Normal_in _
             (fun r => Loaded.strict_eq (Loaded.nutrient_type r) "Nitrogen" &&
                       Loaded_has_word "input" r &&
                       PrimFloat.eqb (Loaded.year r) year0)).
  - f_equal. apply List_filter_Prop. intros r.
    rewrite !andb_true_iff, strict_eq_Some. tauto.
  - intros r Hr. rewrite Measure_includes_has_word by (by apply HM).
    by rewrite and_then_Normal.
Qed.

Lemma Loaded_livestockRows_rows rows year0 :
  Forall (λ r, is_Some (Loaded.Measure r)) rows ->
  Loaded.livestockRows rows year0 = Normal (Loaded_livestock_rows year0 rows).
Proof.
  intros HM. rewrite Forall_forall in HM. unfold Loaded.livestockRows.
  rewrite (Array_filter_Normal_in _
             (fun r => Loaded_has_word "livestock" r &&
                       PrimFloat.eqb (Loaded.year r) year0)).
  - f_equal. apply List_filter_Prop. intros r.
    rewrite !andb_true_iff. tauto.
  - intros r Hr. by rewrite Measure_includes_has_word by (by apply HM).
Qed.

Lemma Loaded_seed_row_get c rows (m : list (option string * ScatterEntry)) :
  Map_get c (fold_left Loaded.seed_row rows m) =
  match last (Loaded.value <$> Loaded_rows_of c rows) with
  | Some v => Some {| nitrogen := v; livestock := 0%float |}
  | None => Map_get c m
  end.
Proof.
  unfold Loaded_rows_of.
  revert m. induction rows as [|r rows IH]; intros m; simpl; [done|].
  rewrite IH, filter_cons. unfold Loaded.seed_row at 1.
  destruct (decide (Loaded.country_code r = c)) as [<-|Hne].
  - rewrite fmap_cons, last_cons, Map_get_set_eq.
    by destruct (last _).
  - by rewrite Map_get_set_ne.
Qed.

Lemma Loaded_add_livestock_get c rows (m : list (option string * ScatterEntry)) :
  Map_get c (fold_left Loaded.add_livestock rows m) =
  (λ e, {| nitrogen := nitrogen e;
           livestock := fold_left (fun acc r => (acc + Loaded.value r)%float)
                          (Loaded_rows_of c rows) (livestock e) |})
    <$> Map_get c m.
Proof.
  unfold Loaded_rows_of.
  revert m. induction rows as [|r rows IH]; intros m; simpl.
  - by destruct (Map_get c m) as [[]|].
  - rewrite IH, filter_cons. unfold Loaded.add_livestock.
    destruct (decide (Loaded.country_code r = c)) as [<-|Hne].
    + destruct (Map_get (Loaded.country_code r) m) as [e|] eqn:Hget.
      * by rewrite Map_get_set_eq.
      * by rewrite Hget.
    + destruct (Map_get (Loaded.country_code r) m) as [e|] eqn:Hget; [|done].
      by rewrite Map_get_set_ne.
Qed.

(** The join of two subsets of loaded rows, country by country. *)
Lemma Loaded_join (first second : list Loaded.EnvDataRecord) :
  List.map
    (fun '(country, values) =>
       {| Loaded.ScatterPoint.country := country;
          Loaded.ScatterPoint.nitrogen := nitrogen values;
          Loaded.ScatterPoint.livestock := livestock values |})
    (fold_left Loaded.add_livestock second
       (fold_left Loaded.seed_row first []))
  = Loaded_joined_pair first second
      <$> first_occurrences (Loaded.country_code <$> first).
Proof.
  set (map2 := fold_left Loaded.add_livestock second
                 (fold_left Loaded.seed_row first [])).
  assert (Hkeys : Map_keys map2 =
                  first_occurrences (Loaded.country_code <$> first)).
  { unfold map2. rewrite Loaded_add_livestock_keys, Loaded_seed_row_keys.
    apply Set_new_first_occurrences. }
  assert (Hget : forall c, Map_get c map2 =
            (λ v, {| nitrogen := v;
                     livestock :=
                       fold_left (fun acc r => (acc + Loaded.value r)%float)
                         (Loaded_rows_of c second) 0%float |})
              <$> last (Loaded.value <$> Loaded_rows_of c first)).
  { intros c. unfold map2.
    rewrite Loaded_add_livestock_get, Loaded_seed_row_get.
    by destruct (last _). }
  assert (Hent : Forall (λ e, Map_get e.1 map2 = Some e.2) map2).
  { apply Map_entries_get. rewrite Hkeys. apply NoDup_first_occurrences. }
  rewrite <- Hkeys. unfold Map_keys.
  change (List.map fst map2) with (fst <$> map2).
  rewrite <- list_fmap_compose.
  apply Forall_fmap_ext. eapply Forall_impl; [exact Hent|].
  intros [c e] He. simpl in *. rewrite Hget in He. unfold Loaded_joined_pair.
  destruct (last _) as [v|]; simplify_eq/=. done.
Qed.

(** C8, amended. [filterProtectionCoefficient] completes normally on every
    set of loaded rows, with one tuple for each row whose [Measure] is the
    label, in order, carrying the country, year and value of that row as
    they are. On every set of loaded rows in which each row has a string
    [Measure], as the type [EnvData] declares, and for all criteria:
    [getNutrientSurplusByCountry] and [groupByMeasure] complete normally
    with exactly the rows that pass their tests, in order and as they are;
    [getScatterData] completes normally with one pair for each country
    code of the nitrogen-input rows, whose [nitrogen] is the value of the
    last such row as it is and whose [livestock] is the sum of the values
    of the livestock rows of that country. *)
Theorem filter_ts_completes_normally
    (rows : list Loaded.EnvDataRecord)
    (nutrient : NutrientName) (nutrient' : string) (year0 : number) :
  Loaded.filterProtectionCoefficient rows =
    Normal
      (Loaded_tuple
         <$> filter
               (λ r, Loaded.Measure r =
                       Some "Producer Nominal Protection Coefficient")
               rows) /\
  (Forall (λ r, is_Some (Loaded.Measure r)) rows ->
   Loaded.getNutrientSurplusByCountry rows nutrient year0 =
     Normal (Loaded_surplus_rows (nutrient_string nutrient) year0 rows) /\
   Loaded.getScatterData rows year0 =
     Normal
       (Loaded_joined_pair (Loaded_nitrogen_rows year0 rows)
                           (Loaded_livestock_rows year0 rows)
          <$> first_occurrences
                (Loaded.country_code <$> Loaded_nitrogen_rows year0 rows)) /\
   Loaded.groupByMeasure rows nutrient' year0 =
     Normal (Loaded_surplus_rows nutrient' year0 rows)).
Proof.
  split.
  - unfold Loaded.filterProtectionCoefficient. f_equal.
    rewrite (List_filter_Prop _
               (λ r, Loaded.Measure r =
                       Some "Producer Nominal Protection Coefficient")).
    + done.
    + intros r. apply strict_eq_Some.
  - intros HM. split; [|split].
    + apply Loaded_surplus_filter_rows; [done|]. intros r.
      by rewrite andb_true_iff, strict_eq_Some.
    + unfold Loaded.getScatterData.
      rewrite Loaded_nitrogenInput_rows, Loaded_livestockRows_rows by done.
      cbn [mbind Completion_bind]. f_equal. apply Loaded_join.
    + apply Loaded_surplus_filter_rows; [done|]. intros r.
      rewrite andb_true_iff, strict_eq_Some. tauto.
Qed.

Lemma filter_ts_completes_normally_witness :
  Forall (λ r, is_Some (Loaded.Measure r)) [row_without_country] /\
  Loaded.getScatterData [row_without_country] 2000 =
    Normal
      (Loaded_joined_pair (Loaded_nitrogen_rows 2000 [row_without_country])
                          (Loaded_livestock_rows 2000 [row_without_country])
         <$> first_occurrences
               (Loaded.country_code
                  <$> Loaded_nitrogen_rows 2000 [row_without_country])).
Proof.
  assert (HM : Forall (λ r, is_Some (Loaded.Measure r)) [row_without_country]).
  { repeat constructor. by eexists. }
  split; [exact HM|].
  exact (proj1 (proj2 (proj2
    (filter_ts_completes_normally [row_without_country]
       Nitrogen "Nitrogen" 2000) HM))).
Defined.

(** The row without a country code gives the pair of the missing code,
    with its value, which is not a number, as it is. *)
Example Loaded_getScatterData_passes_values :
  Loaded_joined_pair (Loaded_nitrogen_rows 2000 [row_without_country])
                     (Loaded_livestock_rows 2000 [row_without_country])
    <$> first_occurrences
          (Loaded.country_code
             <$> Loaded_nitrogen_rows 2000 [row_without_country])
  = [ Loaded.ScatterPoint.mk None nan 0 ].
Proof. vm_compute. reflexivity. Qed.
